(** * Osint_Tracker: the credit-and-redemption ledger of [database.py]

    A shallow embedding of [src/database.py]: the time-window parser
    [parse_time_string], the ledger operations [add_user],
    [update_credits], [create_redeem_code] and [redeem_code_db], the
    other functions that write to the users and code tables, and the two
    SQLite triggers that [init_db] installs; of the registration step of
    [start_command] in [src/main.py], its gates [is_user_admin],
    [is_user_banned] and the credit check of [process_api_call], the
    redeem step of [handle_inputs] and [clean_api_response]; and the
    properties the design document states about them.

    Conventions of the embedding.
    - A Python [str] is a [string] whose characters are read as the code
      points 0..255 (Latin-1); the character classes below are the ones
      CPython uses on that range.  Texts with other characters are
      outside the embedding.  [int] refuses more than 4300 digits, the
      limit CPython starts with.
    - Python integers and the INTEGER columns are [Z].  [sqlite3] binds
      a Python integer as a 64-bit integer and raises [OverflowError]
      for any other; module [Py] has the calls with that check for
      [add_user], [update_credits], [create_redeem_code],
      [redeem_code_db] and [bulk_update_credits].  A sum
      beyond 64 bits is stored by SQLite as a REAL, which the columns
      of the embedding do not hold: what is stated about a sum is
      stated for a sum that fits.
    - An operation runs at one instant [now], counted in microseconds
      on the clock of the Python process.  SQLite's [datetime('now')]
      is given the same clock, cut to whole seconds; on a host that
      does not keep UTC it reads another hour, and SQLite rounds a
      stored time to the millisecond.  The time test of the expiry
      trigger and of the sweep is exact up to this only; what is stated
      below about the trigger and the sweep does not depend on the
      outcome of that test.
      The table [lookup_logs] is written to by [log_lookup] alone and
      is left out.
    - Every function of [database.py] opens a connection of its own, so
      the [PRAGMA foreign_keys = ON] that [init_db] issues on its
      connection does not reach them: foreign keys are not enforced. *)

From Stdlib Require Import ZArith NArith Ascii String Lia.
From Stdlib Require Import DecimalString DecimalPos.
From stdpp Require Import gmap strings list fin_maps.

Local Open Scope string_scope.
Local Open Scope Z_scope.

(** ** What a Python call produces *)

Inductive exn : Type :=
  | ValueError (msg : string)
  | IntegrityError (msg : string).

(** [str(e)] *)
Definition str_exn (e : exn) : string :=
  match e with
  | ValueError msg => msg
  | IntegrityError msg => msg
  end.

Inductive py_result (A : Type) : Type :=
  | Return (a : A)
  | Raise (e : exn).

Arguments Return {A} a.
Arguments Raise {A} e.

(** ** Python strings on the Latin-1 range *)

Module PyStr.

Definition code (c : ascii) : Z := Z.of_nat (nat_of_ascii c).

(** [\d] of [re] and the characters [int] accepts: the decimal digits
    (category Nd), which below 256 are '0'..'9'. *)
Definition is_decimal (c : ascii) : bool :=
  (48 <=? code c) && (code c <=? 57).

(** [str.isdigit] also accepts the superscripts U+00B2, U+00B3 and
    U+00B9, whose Numeric_Type is Digit. *)
Definition is_digit_char (c : ascii) : bool :=
  is_decimal c || (code c =? 178) || (code c =? 179) || (code c =? 185).

(** [str.lower] of one character: A..Z and the upper-case letters
    U+00C0..U+00DE (U+00D7 is the multiplication sign). *)
Definition lower_char (c : ascii) : ascii :=
  let n := code c in
  if ((65 <=? n) && (n <=? 90))
     || ((192 <=? n) && (n <=? 222) && negb (n =? 215))
  then ascii_of_nat (Z.to_nat (n + 32))
  else c.

Fixpoint lower (s : string) : string :=
  match s with
  | EmptyString => EmptyString
  | String c t => String (lower_char c) (lower t)
  end.

Fixpoint all_chars (p : ascii -> bool) (s : string) : bool :=
  match s with
  | EmptyString => true
  | String c t => p c && all_chars p t
  end.

(** [len(s)] *)
Definition len (s : string) : Z := Z.of_nat (String.length s).

(** [s.isdigit()]: at least one character, all of them digits. *)
Definition isdigit (s : string) : bool :=
  match s with
  | EmptyString => false
  | _ => all_chars is_digit_char s
  end.

Definition digit_value (c : ascii) : Z := code c - 48.

Fixpoint int_acc (acc : Z) (s : string) : Z :=
  match s with
  | EmptyString => acc
  | String c t => int_acc (10 * acc + digit_value c) t
  end.

(** The longest prefix of decimal digits, and what follows it. *)
Fixpoint span_decimal (s : string) : string * string :=
  match s with
  | EmptyString => (EmptyString, EmptyString)
  | String c t =>
      if is_decimal c
      then let '(ds, rest) := span_decimal t in (String c ds, rest)
      else (EmptyString, s)
  end.

(** The messages of [int]'s [ValueError], up to the colon; CPython
    goes on with the literal, or with the number of digits. *)
Definition invalid_literal : string :=
  "invalid literal for int() with base 10".

Definition exceeds_limit : string :=
  "Exceeds the limit (4300 digits) for integer string conversion".

(** [sys.get_int_max_str_digits()], as CPython starts with. *)
Definition max_str_digits : Z := 4300.

(** [int(s)] for a string without sign, blanks or underscores.  CPython
    scans the leading digits; more of them than [max_str_digits] is a
    [ValueError], and so is a string that has no digit or goes on after
    the digits; otherwise the decimal value. *)
Definition int (s : string) : py_result Z :=
  let '(ds, rest) := span_decimal s in
  if max_str_digits <? len ds
  then Raise (ValueError exceeds_limit)
  else
    match ds, rest with
    | String _ _, EmptyString => Return (int_acc 0 ds)
    | _, _ => Raise (ValueError invalid_literal)
    end.

(** [(\d+)u] anchored at the head of [s].  [\d+] is greedy and what
    follows a maximal run of digits is not a digit, so no shorter run
    can be followed by [u]: the match, if any, takes the whole run. *)
Definition match_here (u : ascii) (s : string) : option string :=
  match span_decimal s with
  | (String c ds, String v _) =>
      if Ascii.eqb v u then Some (String c ds) else None
  | _ => None
  end.

(** [re.search(r'(\d+)u', s)]: group 1 of the leftmost match. *)
Fixpoint re_search (u : ascii) (s : string) : option string :=
  match match_here u s with
  | Some g => Some g
  | None =>
      match s with
      | EmptyString => None
      | String _ t => re_search u t
      end
  end.

End PyStr.

(** ** [parse_time_string] *)

(** [if match: total_minutes += int(match.group(1)) * k], for the
    result [m] of one [re.search]. *)
Definition add_component (total_minutes : Z) (m : option string) (k : Z)
  : py_result Z :=
  match m with
  | Some group1 =>
      match PyStr.int group1 with
      | Return v => Return (total_minutes + v * k)
      | Raise e => Raise e
      end
  | None => Return total_minutes
  end.

Definition is_match (m : option string) : bool :=
  match m with Some _ => true | None => false end.

(** [return total_minutes if total_minutes > 0 else None] *)
Definition positive_or_none (total_minutes : Z) : option Z :=
  if 0 <? total_minutes then Some total_minutes else None.

Definition parse_time_string (time_str : string) : py_result (option Z) :=
  if String.eqb time_str "" || String.eqb (PyStr.lower time_str) "none"
  then Return None
  else
    let time_str := PyStr.lower time_str in
    let total_minutes := 0 in
    let hour_match := PyStr.re_search "h" time_str in
    match add_component total_minutes hour_match 60 with
    | Raise e => Raise e
    | Return total_minutes =>
    let minute_match := PyStr.re_search "m" time_str in
    match add_component total_minutes minute_match 1 with
    | Raise e => Raise e
    | Return total_minutes =>
    let day_match := PyStr.re_search "d" time_str in
    match add_component total_minutes day_match (24 * 60) with
    | Raise e => Raise e
    | Return total_minutes =>
    if is_match hour_match || is_match minute_match || is_match day_match
    then Return (positive_or_none total_minutes)
    else if PyStr.isdigit time_str
    then match PyStr.int time_str with
         | Return total_minutes => Return (positive_or_none total_minutes)
         | Raise e => Raise e
         end
    else Return None
    end end end.

(** ** The tables of [init_db] *)

(** A TEXT column that holds a timestamp: either the text that
    [datetime.isoformat()] or SQLite's [datetime()] writes for the
    instant [t] (microseconds), which [datetime.fromisoformat] and
    SQLite's [datetime()] read back, or any other text (or NULL), on
    which [fromisoformat] raises and [datetime()] gives NULL. *)
Inductive date_text : Type :=
  | IsoText (t : Z)
  | OtherText (s : string).

(** [users]; the key [user_id] is the key of the map. *)
Record user_row : Type := {
  username : string;
  credits : Z;
  joined_date : date_text;
  referrer_id : option Z;
  is_banned : Z;
  total_earned : Z;
  last_active : date_text
}.

(** [admins], keyed by [user_id]. *)
Record admin_row : Type := {
  level : string;
  added_by : Z;
  added_date : date_text
}.

(** [redeem_codes], keyed by [code]. *)
Record code_row : Type := {
  amount : Z;
  max_uses : Z;
  current_uses : Z;
  expiry_minutes : option Z;
  created_date : date_text;
  is_active : Z
}.

(** [redeem_logs]; the AUTOINCREMENT id is the position in the list. *)
Record log_row : Type := {
  log_user_id : Z;
  log_code : string;
  claimed_date : date_text
}.

Record DB : Type := {
  users : gmap Z user_row;
  admins : gmap Z admin_row;
  redeem_codes : gmap string code_row;
  redeem_logs : list log_row
}.

Definition empty_db : DB :=
  {| users := ∅; admins := ∅; redeem_codes := ∅; redeem_logs := [] |}.

Definition set_users (f : gmap Z user_row → gmap Z user_row) (d : DB) : DB :=
  {| users := f (users d); admins := admins d;
     redeem_codes := redeem_codes d; redeem_logs := redeem_logs d |}.

Definition set_admins (f : gmap Z admin_row → gmap Z admin_row) (d : DB) : DB :=
  {| users := users d; admins := f (admins d);
     redeem_codes := redeem_codes d; redeem_logs := redeem_logs d |}.

Definition set_codes
  (f : gmap string code_row → gmap string code_row) (d : DB) : DB :=
  {| users := users d; admins := admins d;
     redeem_codes := f (redeem_codes d); redeem_logs := redeem_logs d |}.

Definition set_logs (f : list log_row → list log_row) (d : DB) : DB :=
  {| users := users d; admins := admins d;
     redeem_codes := redeem_codes d; redeem_logs := f (redeem_logs d) |}.

(** ** Clock *)

Definition us_per_second : Z := 1000000.
Definition us_per_minute : Z := 60 * us_per_second.

(** SQLite's [datetime(...)] keeps whole seconds. *)
Definition sql_seconds (t : Z) : Z := t / us_per_second.

(** [datetime.now().isoformat()] *)
Definition isoformat (now : Z) : date_text := IsoText now.

(** SQLite's [datetime('now')] and [CURRENT_TIMESTAMP]. *)
Definition sql_datetime_now (now : Z) : date_text :=
  IsoText (us_per_second * sql_seconds now).

(** ** A connection

    [aiosqlite.connect] opens a connection on the stored database;
    statements change the connection's view [txn]; [commit] stores the
    view, [rollback] drops it, and leaving the [async with] block closes
    the connection, which keeps what was stored. *)

Record conn : Type := { disk : DB; txn : DB }.

Definition connect (d : DB) : conn := {| disk := d; txn := d |}.

Definition sql (A : Type) : Type := conn → py_result A * conn.

#[global] Instance sql_ret : MRet sql := λ A a c, (Return a, c).

#[global] Instance sql_bind : MBind sql := λ A B f m c,
  match m c with
  | (Return a, c') => f a c'
  | (Raise e, c') => (Raise e, c')
  end.

Definition query {A : Type} (q : DB → A) : sql A :=
  λ c, (Return (q (txn c)), c).

Definition execute (stmt : DB → py_result DB) : sql unit :=
  λ c, match stmt (txn c) with
       | Return d => (Return tt, {| disk := disk c; txn := d |})
       | Raise e => (Raise e, c)
       end.

(** [BEGIN TRANSACTION] on a connection that has no transaction open. *)
Definition begin_transaction : sql unit := λ c, (Return tt, c).

Definition commit : sql unit :=
  λ c, (Return tt, {| disk := txn c; txn := txn c |}).

Definition rollback : sql unit :=
  λ c, (Return tt, {| disk := disk c; txn := disk c |}).

(** [try: async with aiosqlite.connect(DB_PATH) as db: body
     except Exception as e: return on_error(e)] *)
Definition with_connection {A : Type}
  (body : sql A) (on_error : exn → A) (d : DB) : A * DB :=
  match body (connect d) with
  | (Return a, c) => (a, disk c)
  | (Raise e, c) => (on_error e, disk c)
  end.

(** ** Triggers *)

(** [update_last_active_trigger], AFTER UPDATE OF credits ON users, for
    the updated row [user_id]. *)
Definition touch_last_active (now : Z) (u : user_row) : user_row :=
  {| username := username u; credits := credits u;
     joined_date := joined_date u; referrer_id := referrer_id u;
     is_banned := is_banned u; total_earned := total_earned u;
     last_active := sql_datetime_now now |}.

Definition update_last_active_trigger (now : Z) (user_id : Z) (d : DB) : DB :=
  set_users (alter (touch_last_active now) user_id) d.

(** [expiry_minutes IS NOT NULL AND expiry_minutes > 0 AND
     datetime(created_date, '+' || expiry_minutes || ' minutes')
       < datetime('now')] *)
Definition sql_expired (now : Z) (c : code_row) : bool :=
  match expiry_minutes c, created_date c with
  | Some m, IsoText t =>
      (0 <? m) && (sql_seconds t + 60 * m <? sql_seconds now)
  | _, _ => false
  end.

Definition set_is_active (v : Z) (c : code_row) : code_row :=
  {| amount := amount c; max_uses := max_uses c;
     current_uses := current_uses c; expiry_minutes := expiry_minutes c;
     created_date := created_date c; is_active := v |}.

(** [cleanup_expired_codes], the trigger AFTER INSERT ON redeem_codes. *)
Definition cleanup_expired_codes_trigger (now : Z) (d : DB) : DB :=
  set_codes
    (fmap (λ c, if sql_expired now c then set_is_active 0 c else c)) d.

(** ** Statements *)

(** [UPDATE users SET credits = ..., ... WHERE user_id = ?]: the SET
    clause is [f]; the trigger on [credits] runs for the row it
    changed. *)
Definition update_user_credits
  (now : Z) (user_id : Z) (f : user_row → user_row) : sql unit :=
  execute (λ d,
    match users d !! user_id with
    | Some _ =>
        Return (update_last_active_trigger now user_id
                  (set_users (alter f user_id) d))
    | None => Return d
    end).

(** [UPDATE users SET ... WHERE user_id = ?] that leaves [credits]. *)
Definition update_user (user_id : Z) (f : user_row → user_row) : sql unit :=
  execute (λ d, Return (set_users (alter f user_id) d)).

(** [INSERT INTO users]: [user_id] is the primary key. *)
Definition insert_user (user_id : Z) (u : user_row) : sql unit :=
  execute (λ d,
    match users d !! user_id with
    | Some _ => Raise (IntegrityError "UNIQUE constraint failed: users.user_id")
    | None => Return (set_users (insert user_id u) d)
    end).

(** [INSERT INTO redeem_codes]: primary key [code], and the CHECK
    constraints of the table; then the trigger. *)
Definition insert_code (now : Z) (code : string) (c : code_row) : sql unit :=
  execute (λ d,
    match redeem_codes d !! code with
    | Some _ =>
        Raise (IntegrityError "UNIQUE constraint failed: redeem_codes.code")
    | None =>
        if (0 <? amount c) && (0 <? max_uses c) && (0 <=? current_uses c)
        then Return (cleanup_expired_codes_trigger now
                       (set_codes (insert code c) d))
        else Raise (IntegrityError "CHECK constraint failed")
    end).

Definition update_code (code : string) (f : code_row → code_row) : sql unit :=
  execute (λ d,
    match redeem_codes d !! code with
    | Some c =>
        if 0 <=? current_uses (f c)
        then Return (set_codes (alter f code) d)
        else Raise (IntegrityError "CHECK constraint failed")
    | None => Return d
    end).

(** [SELECT 1 FROM redeem_logs WHERE user_id = ? AND code = ?] *)
Definition claimed (user_id : Z) (code : string) (d : DB) : bool :=
  existsb (λ l, (log_user_id l =? user_id) && String.eqb (log_code l) code)
          (redeem_logs d).

(** [INSERT INTO redeem_logs], under UNIQUE(user_id, code). *)
Definition insert_log (l : log_row) : sql unit :=
  execute (λ d,
    if claimed (log_user_id l) (log_code l) d
    then Raise (IntegrityError
                  "UNIQUE constraint failed: redeem_logs.user_id, redeem_logs.code")
    else Return (set_logs (λ ls, (ls ++ [l])%list) d)).

(** ** SET clauses *)

Definition with_credits (f : Z → Z) (u : user_row) : user_row :=
  {| username := username u; credits := f (credits u);
     joined_date := joined_date u; referrer_id := referrer_id u;
     is_banned := is_banned u; total_earned := total_earned u;
     last_active := last_active u |}.

Definition with_total_earned (f : Z → Z) (u : user_row) : user_row :=
  {| username := username u; credits := credits u;
     joined_date := joined_date u; referrer_id := referrer_id u;
     is_banned := is_banned u; total_earned := f (total_earned u);
     last_active := last_active u |}.

Definition with_last_active (t : date_text) (u : user_row) : user_row :=
  {| username := username u; credits := credits u;
     joined_date := joined_date u; referrer_id := referrer_id u;
     is_banned := is_banned u; total_earned := total_earned u;
     last_active := t |}.

Definition with_is_banned (v : Z) (u : user_row) : user_row :=
  {| username := username u; credits := credits u;
     joined_date := joined_date u; referrer_id := referrer_id u;
     is_banned := v; total_earned := total_earned u;
     last_active := last_active u |}.

Definition with_current_uses (f : Z → Z) (c : code_row) : code_row :=
  {| amount := amount c; max_uses := max_uses c;
     current_uses := f (current_uses c); expiry_minutes := expiry_minutes c;
     created_date := created_date c; is_active := is_active c |}.

(** Python's truth value of an optional integer ([if referrer_id:]). *)
Definition truthy (r : option Z) : bool :=
  match r with
  | Some n => negb (n =? 0)
  | None => false
  end.

(** ** [add_user]

    The call on integers that SQLite can bind; [Py.add_user]
    below is the call on integers of any size. *)

Definition add_user_body
  (now : Z) (user_id : Z) (username : option string) (referrer_id : option Z)
  : sql bool :=
  existing ← query (λ d, users d !! user_id);
  match existing with
  | Some _ => mret false
  | None =>
      let current_time := isoformat now in
      let username_clean := default "" username in
      match referrer_id with
      | Some r =>
          if truthy referrer_id
          then
            referrer ← query (λ d, users d !! r);
            match referrer with
            | Some _ =>
                update_user_credits now r
                  (λ u, with_total_earned (λ e, e + 3)
                          (with_credits (λ c, c + 3) u))
            | None => mret tt
            end
          else mret tt
      | None => mret tt
      end;;
      insert_user user_id
        {| username := username_clean; credits := 5;
           joined_date := current_time; referrer_id := referrer_id;
           is_banned := 0; total_earned := 0;
           last_active := current_time |};;
      commit;;
      mret true
  end.

Definition add_user
  (now : Z) (user_id : Z) (username : option string) (referrer_id : option Z)
  (d : DB) : bool * DB :=
  with_connection (add_user_body now user_id username referrer_id)
                  (λ _, false) d.

(** ** [update_credits]

    The call on integers that SQLite can bind; [Py.update_credits]
    below is the call on integers of any size. *)

Definition update_credits_body (now : Z) (user_id : Z) (amount : Z)
  : sql bool :=
  let current_time := isoformat now in
  (if 0 <? amount
   then update_user_credits now user_id
          (λ u, with_last_active current_time
                  (with_total_earned (λ e, e + amount)
                     (with_credits (λ c, c + amount) u)))
   else update_user_credits now user_id
          (λ u, with_last_active current_time
                  (with_credits (λ c, c + amount) u)));;
  commit;;
  mret true.

Definition update_credits (now : Z) (user_id : Z) (amount : Z) (d : DB)
  : bool * DB :=
  with_connection (update_credits_body now user_id amount) (λ _, false) d.

(** ** [create_redeem_code]

    The call on integers that SQLite can bind; [Py.create_redeem_code]
    below is the call on integers of any size. *)

Definition create_redeem_code_body
  (now : Z) (code : string) (amount max_uses : Z) (expiry_minutes : option Z)
  : sql (bool * string) :=
  existing ← query (λ d, redeem_codes d !! code);
  match existing with
  | Some _ => mret (false, "Code already exists")
  | None =>
      if amount <=? 0 then mret (false, "Amount must be positive")
      else if max_uses <=? 0 then mret (false, "Max uses must be positive")
      else
        insert_code now code
          {| amount := amount; max_uses := max_uses; current_uses := 0;
             expiry_minutes := expiry_minutes;
             created_date := isoformat now; is_active := 1 |};;
        commit;;
        mret (true, "Code created successfully")
  end.

Definition create_redeem_code
  (now : Z) (code : string) (amount max_uses : Z) (expiry_minutes : option Z)
  (d : DB) : (bool * string) * DB :=
  with_connection (create_redeem_code_body now code amount max_uses expiry_minutes)
                  (λ e, (false, "Error: " ++ str_exn e)%string) d.

(** ** [redeem_code_db]

    The call on integers that SQLite can bind; [Py.redeem_code_db]
    below is the call on integers of any size. *)

Inductive redeem_result : Type :=
  | credited (amount : Z)
  | user_not_found
  | already_claimed
  | invalid
  | inactive
  | limit_reached
  | expired
  | error (msg : string).

(** The [try] block of the expiry check: [true] when it returns
    "expired"; [false] when the code is still valid and when the block
    raises, which the [except] clause only logs.  (A sum beyond the
    range of [datetime] raises as well; it lies after every instant, so
    [false] is the answer there too.) *)
Definition expiry_passed (now : Z) (expiry_minutes : Z) (created_date : date_text)
  : bool :=
  match created_date with
  | IsoText created_dt =>
      let expiry_dt := created_dt + expiry_minutes * us_per_minute in
      expiry_dt <? now
  | OtherText _ => false
  end.

Definition redeem_code_db_body (now : Z) (user_id : Z) (code : string)
  : sql redeem_result :=
  begin_transaction;;
  user ← query (λ d, users d !! user_id);
  match user with
  | None => rollback;; mret user_not_found
  | Some _ =>
  seen ← query (claimed user_id code);
  if (seen : bool) then rollback;; mret already_claimed
  else
  data ← query (λ d, redeem_codes d !! code);
  match data with
  | None => rollback;; mret invalid
  | Some data =>
  if is_active data =? 0 then rollback;; mret inactive
  else if max_uses data <=? current_uses data
  then rollback;; mret limit_reached
  else if match expiry_minutes data with
          | Some m => (0 <? m) && expiry_passed now m (created_date data)
          | None => false
          end
  then rollback;; mret expired
  else
    update_code code (with_current_uses (λ n, n + 1));;
    update_user_credits now user_id
      (λ u, with_last_active (isoformat now)
              (with_total_earned (λ e, e + amount data)
                 (with_credits (λ c, c + amount data) u)));;
    insert_log {| log_user_id := user_id; log_code := code;
                  claimed_date := isoformat now |};;
    commit;;
    mret (credited (amount data))
  end
  end.

Definition redeem_code_db (now : Z) (user_id : Z) (code : string) (d : DB)
  : redeem_result * DB :=
  with_connection (redeem_code_db_body now user_id code)
                  (λ e, error ("error: " ++ str_exn e)%string) d.

(** ** The other writers of [database.py] *)

Definition set_ban_status (now : Z) (user_id : Z) (status : Z) (d : DB)
  : bool * DB :=
  with_connection
    (update_user user_id
       (λ u, with_last_active (isoformat now) (with_is_banned status u));;
     commit;;
     mret true)
    (λ _, false) d.

Definition update_last_active (now : Z) (user_id : Z) (d : DB) : bool * DB :=
  with_connection
    (update_user user_id (with_last_active (isoformat now));;
     commit;;
     mret true)
    (λ _, false) d.

Definition reset_user_credits (now : Z) (user_id : Z) (d : DB) : bool * DB :=
  with_connection
    (update_user_credits now user_id
       (λ u, with_last_active (isoformat now) (with_credits (λ _, 0) u));;
     commit;;
     mret true)
    (λ _, false) d.

Definition delete_user (user_id : Z) (d : DB) : bool * DB :=
  with_connection
    (execute (λ d, Return (set_users (delete user_id) d));;
     commit;;
     mret true)
    (λ _, false) d.

(** The loop of [bulk_update_credits], on integers that SQLite can
    bind; [Py.bulk_update_credits] below is the call on integers of any
    size. *)
Fixpoint bulk_update_loop (now : Z) (user_ids : list Z) (amount : Z)
  : sql unit :=
  match user_ids with
  | [] => mret tt
  | user_id :: rest =>
      let current_time := isoformat now in
      (if 0 <? amount
       then update_user_credits now user_id
              (λ u, with_last_active current_time
                      (with_total_earned (λ e, e + amount)
                         (with_credits (λ c, c + amount) u)))
       else update_user_credits now user_id
              (λ u, with_last_active current_time
                      (with_credits (λ c, c + amount) u)));;
      bulk_update_loop now rest amount
  end.

Definition bulk_update_credits
  (now : Z) (user_ids : list Z) (amount : Z) (d : DB) : bool * DB :=
  with_connection
    (begin_transaction;;
     bulk_update_loop now user_ids amount;;
     commit;;
     mret true)
    (λ _, false) d.

Definition add_admin (now : Z) (user_id : Z) (level : string) (d : DB)
  : (bool * string) * DB :=
  with_connection
    (existing ← query (λ d, users d !! user_id);
     match existing with
     | Some _ => mret tt
     | None =>
         insert_user user_id
           {| username := "admin_user"; credits := 5;
              joined_date := sql_datetime_now now; referrer_id := None;
              is_banned := 0; total_earned := 0;
              last_active := isoformat now |}
     end;;
     already ← query (λ d, admins d !! user_id);
     match already with
     | Some _ => mret (false, "User is already an admin")
     | None =>
         execute (λ d,
           Return (set_admins
                     (insert user_id
                        {| level := level; added_by := 0;
                           added_date := isoformat now |}) d));;
         commit;;
         mret (true, "Admin added successfully")
     end)
    (λ e, (false, "Error: " ++ str_exn e)%string) d.

Definition remove_admin (user_id : Z) (d : DB) : bool * DB :=
  with_connection
    (execute (λ d, Return (set_admins (delete user_id) d));;
     commit;;
     mret true)
    (λ _, false) d.

Definition delete_redeem_code (code : string) (d : DB) : bool * DB :=
  with_connection
    (execute (λ d, Return (set_codes (delete code) d));;
     commit;;
     mret true)
    (λ _, false) d.

Definition deactivate_code (code : string) (d : DB) : (bool * string) * DB :=
  with_connection
    (existing ← query (λ d, redeem_codes d !! code);
     match existing with
     | None => mret (false, "Code not found")
     | Some _ =>
         update_code code (set_is_active 0);;
         commit;;
         mret (true, "Code deactivated successfully")
     end)
    (λ e, (false, "Error: " ++ str_exn e)%string) d.

(** The WHERE clause of the sweep: [is_active = 1] and expired. *)
Definition sweepable (now : Z) (c : code_row) : bool :=
  (is_active c =? 1) && sql_expired now c.

(** [cleanup_expired_codes], the function: the sweep, and the number of
    rows it changed. *)
Definition cleanup_expired_codes (now : Z) (d : DB) : Z * DB :=
  with_connection
    (changes ← query (λ d,
        Z.of_nat (length (List.filter (λ kc, sweepable now kc.2)
                                      (map_to_list (redeem_codes d)))));
     execute (λ d,
       Return (set_codes
                 (fmap (λ c, if sweepable now c then set_is_active 0 c else c))
                 d));;
     commit;;
     mret changes)
    (λ _, 0) d.

(** ** Histories: any sequence of calls, each at its instant *)

Inductive call : Type :=
  | AddUser (user_id : Z) (username : option string) (referrer_id : option Z)
  | UpdateCredits (user_id : Z) (amount : Z)
  | SetBanStatus (user_id : Z) (status : Z)
  | CreateRedeemCode (code : string) (amount max_uses : Z)
                     (expiry_minutes : option Z)
  | RedeemCodeDb (user_id : Z) (code : string)
  | AddAdmin (user_id : Z) (level : string)
  | RemoveAdmin (user_id : Z)
  | DeleteRedeemCode (code : string)
  | DeactivateCode (code : string)
  | DeleteUser (user_id : Z)
  | ResetUserCredits (user_id : Z)
  | UpdateLastActive (user_id : Z)
  | BulkUpdateCredits (user_ids : list Z) (amount : Z)
  | CleanupExpiredCodes.

Definition perform (now : Z) (c : call) (d : DB) : DB :=
  match c with
  | AddUser u n r => (add_user now u n r d).2
  | UpdateCredits u a => (update_credits now u a d).2
  | SetBanStatus u s => (set_ban_status now u s d).2
  | CreateRedeemCode c a m e => (create_redeem_code now c a m e d).2
  | RedeemCodeDb u c => (redeem_code_db now u c d).2
  | AddAdmin u l => (add_admin now u l d).2
  | RemoveAdmin u => (remove_admin u d).2
  | DeleteRedeemCode c => (delete_redeem_code c d).2
  | DeactivateCode c => (deactivate_code c d).2
  | DeleteUser u => (delete_user u d).2
  | ResetUserCredits u => (reset_user_credits now u d).2
  | UpdateLastActive u => (update_last_active now u d).2
  | BulkUpdateCredits us a => (bulk_update_credits now us a d).2
  | CleanupExpiredCodes => (cleanup_expired_codes now d).2
  end.

Fixpoint history (calls : list (Z * call)) (d : DB) : DB :=
  match calls with
  | [] => d
  | (now, c) :: rest => history rest (perform now c d)
  end.

(** ** The registration step of [start_command] ([main.py])

    [parsed] is what [int(command.args.split("_")[1])] gave for a
    command argument that starts with "ref_", and [None] when there is
    no such argument or [int] raised. *)

Definition start_referrer (user_id : Z) (parsed : option Z) : option Z :=
  match parsed with
  | Some referrer_id => if referrer_id =? user_id then None else Some referrer_id
  | None => None
  end.

Definition start_command_register
  (now : Z) (user_id : Z) (username : option string) (parsed : option Z)
  (d : DB) : DB :=
  match users d !! user_id with
  | Some _ => d
  | None =>
      let referrer_id := start_referrer user_id parsed in
      let d := (add_user now user_id username referrer_id d).2 in
      match referrer_id with
      | Some r => if truthy referrer_id then (update_credits now r 3 d).2 else d
      | None => d
      end
  end.

(** ** Integer parameters

    [sqlite3] converts a Python [int] that is given as a parameter to a
    64-bit SQLite INTEGER, and raises [OverflowError] for one that does
    not fit; the statement is not run.  The definitions above are the
    calls on integers that fit, as the identities that Telegram gives
    and the values read from the tables do.  The integers that
    [main.py] reads from a message with [int] ([/start ref_...],
    [/gift], [/removecredits], [/gencode], the bulk gift) have no
    bound.  For [add_user], [update_credits], [create_redeem_code],
    [redeem_code_db] and [bulk_update_credits], [Py.f] is the call of
    [f] on integers of any size: when a parameter does not fit, the
    first statement that carries it raises, nothing has been written by
    then or what has been written is not committed, and the [except]
    clause of [f] gives the answer. *)

Definition in_int64 (n : Z) : bool :=
  (-9223372036854775808 <=? n) && (n <=? 9223372036854775807).

(** A parameter that may be [None], which is bound as NULL. *)
Definition bindable (n : option Z) : bool :=
  match n with
  | Some n => in_int64 n
  | None => true
  end.

(** [str(e)] for the [OverflowError] of [sqlite3]. *)
Definition int_too_large : string :=
  "Python int too large to convert to SQLite INTEGER".

Module Py.

(** [user_id] is bound by the first SELECT, [referrer_id] by the second
    SELECT when it is truthy and by the INSERT in any case; 0 fits. *)
Definition add_user
  (now : Z) (user_id : Z) (username : option string) (referrer_id : option Z)
  (d : DB) : bool * DB :=
  if in_int64 user_id && bindable referrer_id
  then add_user now user_id username referrer_id d
  else (false, d).

(** The one UPDATE binds [amount] and [user_id]. *)
Definition update_credits (now : Z) (user_id : Z) (amount : Z) (d : DB)
  : bool * DB :=
  if in_int64 amount && in_int64 user_id
  then update_credits now user_id amount d
  else (false, d).

(** The SELECT binds the code, a text; the two validations return
    before the INSERT, which binds [amount], [max_uses] and
    [expiry_minutes]. *)
Definition create_redeem_code
  (now : Z) (code : string) (amount max_uses : Z) (expiry_minutes : option Z)
  (d : DB) : (bool * string) * DB :=
  if in_int64 amount && in_int64 max_uses && bindable expiry_minutes
  then create_redeem_code now code amount max_uses expiry_minutes d
  else
    match redeem_codes d !! code with
    | Some _ => ((false, "Code already exists"), d)
    | None =>
        if amount <=? 0 then ((false, "Amount must be positive"), d)
        else if max_uses <=? 0 then ((false, "Max uses must be positive"), d)
        else ((false, "Error: " ++ int_too_large)%string, d)
    end.

(** The first SELECT binds [user_id]. *)
Definition redeem_code_db (now : Z) (user_id : Z) (code : string) (d : DB)
  : redeem_result * DB :=
  if in_int64 user_id
  then redeem_code_db now user_id code d
  else (error ("error: " ++ int_too_large)%string, d).

(** Each turn of the loop binds [amount] and the [user_id] of the turn;
    what the turns before it wrote is not committed.  With no identity
    in the list nothing is bound. *)
Definition bulk_update_credits
  (now : Z) (user_ids : list Z) (amount : Z) (d : DB) : bool * DB :=
  if forallb (λ user_id, in_int64 amount && in_int64 user_id) user_ids
  then bulk_update_credits now user_ids amount d
  else (false, d).

End Py.

(** ** Inputs for the examples *)

(** The one-character string U+00B2, SUPERSCRIPT TWO. *)
Definition superscript_two : string := String (ascii_of_nat 178) "".

(** A database with one user and one code, for the examples. *)
Definition ann : user_row :=
  {| username := "ann"; credits := 5; joined_date := IsoText 0;
     referrer_id := None; is_banned := 0; total_earned := 0;
     last_active := IsoText 0 |}.

Definition gift (created : date_text) : code_row :=
  {| amount := 10; max_uses := 2; current_uses := 0;
     expiry_minutes := Some 30; created_date := created; is_active := 1 |}.

Definition shop (created : date_text) : DB :=
  {| users := {[ 7 := ann ]}; admins := ∅;
     redeem_codes := {[ "GIFT" := gift created ]}; redeem_logs := [] |}.

(** Three users and a code for two of them, without expiry. *)
Definition crowd : DB :=
  {| users := {[ 7 := ann; 8 := ann; 9 := ann ]}; admins := ∅;
     redeem_codes :=
       {[ "TWO" := {| amount := 4; max_uses := 2; current_uses := 0;
                      expiry_minutes := None; created_date := IsoText 0;
                      is_active := 1 |} ]};
     redeem_logs := [] |}.

(** ** Vocabulary of the design document *)

(** The CHECK constraints of [redeem_codes]; SQLite keeps them on every
    stored database. *)
Definition check_constraints (d : DB) : Prop :=
  ∀ code c, redeem_codes d !! code = Some c →
            0 < amount c ∧ 0 < max_uses c ∧ 0 ≤ current_uses c.

(** "Expiry minutes is set and positive" and "creation timestamp +
    expiry minutes" is no longer in the future. *)
Definition expiry_elapsed (now : Z) (c : code_row) : bool :=
  match expiry_minutes c, created_date c with
  | Some m, IsoText created => (0 <? m) && (created + m * us_per_minute <? now)
  | _, _ => false
  end.

(** The database after step 7 of a redemption of [code], whose row is
    [c], by [user_id], whose row is [u]. *)
Definition redeemed
  (now : Z) (user_id : Z) (code : string) (u : user_row) (c : code_row)
  (d : DB) : DB :=
  {| users :=
       <[user_id :=
           {| username := username u;
              credits := credits u + amount c;
              joined_date := joined_date u;
              referrer_id := referrer_id u;
              is_banned := is_banned u;
              total_earned := total_earned u + amount c;
              last_active := sql_datetime_now now |}]> (users d);
     admins := admins d;
     redeem_codes :=
       <[code :=
           {| amount := amount c;
              max_uses := max_uses c;
              current_uses := current_uses c + 1;
              expiry_minutes := expiry_minutes c;
              created_date := created_date c;
              is_active := is_active c |}]> (redeem_codes d);
     redeem_logs :=
       (redeem_logs d ++ [{| log_user_id := user_id; log_code := code;
                             claimed_date := IsoText now |}])%list |}.

(** "Current use count never exceeds maximum uses." *)
Definition uses_bounded (d : DB) : Prop :=
  ∀ code c, redeem_codes d !! code = Some c → current_uses c ≤ max_uses c.

(** "A user cannot be their own referrer." *)
Definition no_self_referrer (d : DB) : Prop :=
  ∀ user_id u, users d !! user_id = Some u → referrer_id u ≠ Some user_id.

(** A call of [add_user] whose referrer is the user being added. *)
Definition self_referral (c : call) : Prop :=
  match c with
  | AddUser user_id _ referrer => referrer = Some user_id
  | _ => False
  end.

(** The constraints and the bound together. *)
Definition codes_ok (d : DB) : Prop := check_constraints d ∧ uses_bounded d.

(** The value a component adds: the number in front of the unit, 0 when
    the unit does not occur. *)
Definition matched_value (u : ascii) (s : string) : Z :=
  match PyStr.re_search u s with
  | Some g => PyStr.int_acc 0 g
  | None => 0
  end.

(** [preserves P m]: the body [m] keeps [P] on both the stored database
    and the connection's view, whatever it returns or raises. *)

Definition preserves (P : DB → Prop) {A : Type} (m : sql A) : Prop :=
  ∀ k, P (disk k) → P (txn k) → P (disk (m k).2) ∧ P (txn (m k).2).

(** ** Readers of [database.py] *)

(** A key of a Python dictionary: a string or an integer. *)
Inductive py_key : Type :=
  | KeyStr (s : string)
  | KeyInt (n : Z).

(** A value that a column of [users] holds. *)
Inductive py_value : Type :=
  | VInt (n : Z)
  | VStr (s : string)
  | VDate (t : date_text)
  | VNone.

Definition key_eqb (a b : py_key) : bool :=
  match a, b with
  | KeyStr s, KeyStr t => String.eqb s t
  | KeyInt m, KeyInt n => m =? n
  | _, _ => false
  end.

(** [d[k]]; [None] stands for the [KeyError] of a missing key. *)
Fixpoint dict_getitem (k : py_key) (d : list (py_key * py_value))
  : option py_value :=
  match d with
  | [] => None
  | (k', v) :: rest => if key_eqb k' k then Some v else dict_getitem k rest
  end.

(** [dict(row)] for a row of [users] read through [aiosqlite.Row]: one
    entry per column, under the column's name. *)
Definition row_dict (user_id : Z) (u : user_row) : list (py_key * py_value) :=
  [ (KeyStr "user_id", VInt user_id);
    (KeyStr "username", VStr (username u));
    (KeyStr "credits", VInt (credits u));
    (KeyStr "joined_date", VDate (joined_date u));
    (KeyStr "referrer_id",
       match referrer_id u with Some r => VInt r | None => VNone end);
    (KeyStr "is_banned", VInt (is_banned u));
    (KeyStr "total_earned", VInt (total_earned u));
    (KeyStr "last_active", VDate (last_active u)) ].

(** [get_user]: [dict(row) if row else None]. *)
Definition get_user (user_id : Z) (d : DB)
  : option (list (py_key * py_value)) :=
  row_dict user_id <$> users d !! user_id.

(** [is_admin]: [row[0] if row else False], [None] standing for
    [False]. *)
Definition is_admin (user_id : Z) (d : DB) : option string :=
  level <$> admins d !! user_id.

(** ** Gates of [main.py] *)

(** [is_user_admin], for the configured [OWNER_ID] and [ADMIN_IDS]. *)
Definition is_user_admin
  (owner_id : Z) (admin_ids : list Z) (user_id : Z) (d : DB) : option string :=
  if user_id =? owner_id then Some "owner"
  else if existsb (Z.eqb user_id) admin_ids then Some "admin"
  else is_admin user_id d.

(** Python's truth value of what [is_user_admin] returns. *)
Definition truthy_level (admin_level : option string) : bool :=
  match admin_level with
  | Some s => negb (String.eqb s "")
  | None => false
  end.

(** [is_user_banned]: [user and len(user) > 5 and user[5] == 1], with
    every exception answered [False]. *)
Definition is_user_banned (user_id : Z) (d : DB) : bool :=
  match get_user user_id d with
  | None => false
  | Some user =>
      if negb (length user =? 0)%nat && (5 <? length user)%nat
      then match dict_getitem (KeyInt 5) user with
           | Some (VInt n) => n =? 1
           | Some _ => false
           | None => false
           end
      else false
  end.

Inductive gate : Type :=
  | Proceed
  | InsufficientCredits
  | AccountError.

(** The credit check of [process_api_call]:
    [if not admin_level and (not user or len(user) <= 2 or user[2] < 1)],
    inside [try ... except Exception]. *)
Definition credit_gate
  (admin_level : option string) (user : option (list (py_key * py_value)))
  : gate :=
  if truthy_level admin_level then Proceed
  else
    match user with
    | None => InsufficientCredits
    | Some user =>
        if (length user =? 0)%nat || (length user <=? 2)%nat
        then InsufficientCredits
        else match dict_getitem (KeyInt 2) user with
             | Some (VInt n) => if n <? 1 then InsufficientCredits else Proceed
             | _ => AccountError
             end
    end.

Inductive api_outcome : Type :=
  | IgnoredBanned
  | Refused (g : gate)
  | Interrupted
  | Answered.

(** What [process_api_call] does to the database.  [completes] says
    whether the part between the credit check and the debit (the
    messages and the HTTP request) runs to its end, rather than
    returning early or raising.  [log_lookup] writes to [lookup_logs]
    only. *)
Definition process_api_call
  (owner_id : Z) (admin_ids : list Z) (now : Z) (user_id : Z)
  (completes : bool) (d : DB) : api_outcome * DB :=
  if is_user_banned user_id d then (IgnoredBanned, d)
  else
    let user := get_user user_id d in
    let admin_level := is_user_admin owner_id admin_ids user_id d in
    match credit_gate admin_level user with
    | Proceed =>
        if completes
        then
          let d := if negb (truthy_level admin_level)
                   then (update_credits now user_id (-1) d).2 else d in
          (Answered, (update_last_active now user_id d).2)
        else (Interrupted, d)
    | g => (Refused g, d)
    end.



(** ** [clean_api_response] ([main.py]) *)

(** A decoded JSON document.  The entries of an object are in the order
    of the dictionary, and their keys are distinct. *)
#[local] Unset Elimination Schemes.
Inductive json : Type :=
  | JNull
  | JBool (b : bool)
  | JNumber (repr : string)
  | JString (s : string)
  | JArray (items : list json)
  | JObject (entries : list (string * json)).
#[local] Set Elimination Schemes.

(** [sub in s] *)
Fixpoint contains (sub s : string) : bool :=
  String.prefix sub s
  || match s with
     | EmptyString => false
     | String _ rest => contains sub rest
     end.

Definition unwanted_names : list string :=
  ["@patelkrish_99"; "patelkrish_99"; "t.me/anshapi"; "anshapi";
   "@losernagiofficial"].

(** The two tests under which a string value is left out. *)
Definition dropped_string (value : string) : bool :=
  existsb (λ unwanted, contains unwanted (PyStr.lower value)) unwanted_names
  || (contains "credit" (PyStr.lower value)
      && negb (contains "nullprotocol" (PyStr.lower value))).

Definition is_object (j : json) : bool :=
  match j with JObject _ => true | _ => false end.

Fixpoint clean_api_response (data : json) : json :=
  match data with
  | JObject entries =>
      JObject
        ((fix clean_entries (entries : list (string * json))
            : list (string * json) :=
            match entries with
            | [] => []
            | (key, value) :: rest =>
                if String.eqb (PyStr.lower key) "branding"
                then clean_entries rest
                else
                  match value with
                  | JString v =>
                      if dropped_string v then clean_entries rest
                      else (key, value) :: clean_entries rest
                  | JObject _ =>
                      (key, clean_api_response value) :: clean_entries rest
                  | JArray items =>
                      (key,
                       JArray
                         ((fix clean_items (items : list json) : list json :=
                             match items with
                             | [] => []
                             | item :: more =>
                                 (if is_object item
                                  then clean_api_response item else item)
                                 :: clean_items more
                             end) items))
                      :: clean_entries rest
                  | _ => (key, value) :: clean_entries rest
                  end
            end) entries)
  | JArray items =>
      JArray
        ((fix clean_items (items : list json) : list json :=
            match items with
            | [] => []
            | item :: more =>
                (if is_object item then clean_api_response item else item)
                :: clean_items more
            end) items)
  | _ => data
  end.

(** An entry of an object stays unless its key is "branding" in any
    letter case or its value is a string that is left out. *)
Definition kept_entry (entry : string * json) : bool :=
  negb (String.eqb (PyStr.lower entry.1) "branding")
  && negb match entry.2 with
          | JString v => dropped_string v
          | _ => false
          end.

(** The documents in which [clean_api_response] finds nothing to remove:
    the entries of an object are kept entries with such values, and the
    objects that are items of an array are such objects.  An array that
    is an item of an array is not looked into. *)
Fixpoint cleaned (data : json) : bool :=
  match data with
  | JObject entries =>
      forallb (λ entry, kept_entry entry && cleaned entry.2) entries
  | JArray items =>
      forallb (λ item, if is_object item then cleaned item else true) items
  | _ => true
  end.

(** Induction over a document and the documents inside it. *)
Definition json_induction (P : json → Prop)
  (Hnull : P JNull) (Hbool : ∀ b, P (JBool b))
  (Hnumber : ∀ repr, P (JNumber repr)) (Hstring : ∀ s, P (JString s))
  (Harray : ∀ items, Forall P items → P (JArray items))
  (Hobject : ∀ entries, Forall (λ entry, P entry.2) entries →
                        P (JObject entries))
  : ∀ data, P data :=
  fix induction (data : json) : P data :=
    match data with
    | JNull => Hnull
    | JBool b => Hbool b
    | JNumber repr => Hnumber repr
    | JString s => Hstring s
    | JArray items =>
        Harray items
          ((fix all (l : list json) : Forall P l :=
              match l with
              | [] => List.Forall_nil P
              | item :: more =>
                  List.Forall_cons P item more (induction item) (all more)
              end) items)
    | JObject entries =>
        Hobject entries
          ((fix all (l : list (string * json))
              : Forall (λ entry, P entry.2) l :=
              match l with
              | [] => List.Forall_nil _
              | entry :: more =>
                  List.Forall_cons (λ entry, P entry.2) entry more
                    (induction entry.2) (all more)
              end) entries)
    end.

(** ** Further vocabulary *)

(** The code has a row, and the row is switched off. *)
Definition inactive_code (code : string) (d : DB) : Prop :=
  ∃ c, redeem_codes d !! code = Some c ∧ is_active c = 0.

(** "The pair (user identity, code) is unique" among the redemption
    records. *)
Definition claims_distinct (d : DB) : Prop :=
  NoDup (map (λ l, (log_user_id l, log_code l)) (redeem_logs d)).

(** No balance exceeds the starting balance plus what the user earned. *)
Definition ledger_bound (d : DB) : Prop :=
  ∀ user_id u, users d !! user_id = Some u →
               0 ≤ total_earned u ∧ credits u ≤ 5 + total_earned u.

(** "A (user, code) redemption record exists." *)
Definition has_redeemed (user_id : Z) (code : string) (d : DB) : Prop :=
  ∃ l, l ∈ redeem_logs d ∧ log_user_id l = user_id ∧ log_code l = code.

(** What the AFTER INSERT trigger and the sweep may do to a row: leave
    it, or, when it has a positive [expiry_minutes], switch it off. *)
Definition kept_or_switched_off (c c' : code_row) : Prop :=
  c' = c
  ∨ (c' = set_is_active 0 c ∧ ∃ m, expiry_minutes c = Some m ∧ 0 < m).

(** The rows that are active in [d] and are not in [d']. *)
Definition switched_off (d d' : DB) : list (string * code_row) :=
  List.filter
    (λ kc, (is_active kc.2 =? 1)
           && negb (bool_decide
                      (is_active <$> redeem_codes d' !! kc.1 = Some 1)))
    (map_to_list (redeem_codes d)).

(** The amounts are 64-bit integers, and so is the balance after each
    of them. *)
Fixpoint balances_fit (balance : Z) (amounts : list Z) : bool :=
  match amounts with
  | [] => true
  | a :: rest =>
      in_int64 a && in_int64 (balance + a) && balances_fit (balance + a) rest
  end.

(** ** Durations as an administrator writes them *)

Inductive time_unit : Type := Hours | Minutes | Days.

#[global] Instance time_unit_eq_dec : EqDecision time_unit.
Proof. solve_decision. Defined.

Definition unit_minutes (u : time_unit) : Z :=
  match u with
  | Hours => 60
  | Minutes => 1
  | Days => 1440
  end.

Definition unit_letter (upper_case : bool) (u : time_unit) : ascii :=
  match u, upper_case with
  | Hours, false => "h"
  | Hours, true => "H"
  | Minutes, false => "m"
  | Minutes, true => "M"
  | Days, false => "d"
  | Days, true => "D"
  end%char.

(** A number of units, and the case its letter is written in. *)
Record component : Type := {
  quantity : N;
  measure : time_unit;
  upper_case : bool
}.

(** The decimal numeral of [n]. *)
Definition numeral (n : N) : string :=
  NilZero.string_of_uint (N.to_uint n).

(** The components written one after the other, as in "1h30m". *)
Fixpoint duration_text (parts : list component) : string :=
  match parts with
  | [] => ""
  | p :: rest =>
      numeral (quantity p)
      ++ String (unit_letter (upper_case p) (measure p)) (duration_text rest)
  end.

Fixpoint duration_minutes (parts : list component) : Z :=
  match parts with
  | [] => 0
  | p :: rest =>
      Z.of_N (quantity p) * unit_minutes (measure p) + duration_minutes rest
  end.

(** The first component with the unit [u]. *)
Fixpoint first_quantity (u : time_unit) (parts : list component) : option N :=
  match parts with
  | [] => None
  | p :: rest =>
      if bool_decide (measure p = u) then Some (quantity p)
      else first_quantity u rest
  end.

(** * Properties *)

(** ** Running a body *)

Ltac run_sql :=
  unfold with_connection, connect, mbind, sql_bind, mret, sql_ret,
         query, execute, commit, rollback, begin_transaction;
  cbn [disk txn fst snd].

Lemma alter_present `{Countable K} {A : Type} (f : A → A) (k : K) (x : A)
      (m : gmap K A) :
  m !! k = Some x → alter f k m = <[k := f x]> m.
Proof.
  intros Hk. apply map_eq. intros j.
  destruct (decide (k = j)) as [->|Hne].
  - rewrite lookup_alter_eq, lookup_insert_eq, Hk. reflexivity.
  - rewrite lookup_alter_ne, lookup_insert_ne by done. reflexivity.
Qed.

(** What [update_user_credits] stores for a row that exists. *)
Lemma update_user_credits_present now user_id f u c :
  users (txn c) !! user_id = Some u →
  update_user_credits now user_id f c
  = (Return tt,
     {| disk := disk c;
        txn := set_users (insert user_id (touch_last_active now (f u)))
                         (txn c) |}).
Proof.
  intros Hu. unfold update_user_credits, execute. rewrite Hu.
  unfold update_last_active_trigger, set_users. cbn.
  rewrite (alter_present f user_id u) by done.
  rewrite (alter_present _ user_id (f u)) by apply lookup_insert_eq.
  rewrite insert_insert_eq. reflexivity.
Qed.

Lemma update_user_credits_absent now user_id f c :
  users (txn c) !! user_id = None →
  update_user_credits now user_id f c = (Return tt, c).
Proof.
  intros Hu. unfold update_user_credits, execute. rewrite Hu.
  destruct c. reflexivity.
Qed.

(** ** [parse_time_string] *)

Lemma span_decimal_digits s :
  PyStr.all_chars PyStr.is_decimal (PyStr.span_decimal s).1 = true.
Proof.
  induction s as [|c t IH]; cbn; [reflexivity|].
  destruct (PyStr.is_decimal c) eqn:Hc; [|reflexivity].
  destruct (PyStr.span_decimal t) as [ds rest]. cbn in *.
  rewrite Hc. exact IH.
Qed.

Lemma span_decimal_all s :
  PyStr.all_chars PyStr.is_decimal s = true → PyStr.span_decimal s = (s, "").
Proof.
  induction s as [|c t IH]; cbn; [reflexivity|].
  intros H. apply andb_true_iff in H as [Hc Ht].
  rewrite Hc, (IH Ht). reflexivity.
Qed.

Lemma span_decimal_length s :
  PyStr.len (PyStr.span_decimal s).1 + PyStr.len (PyStr.span_decimal s).2
  = PyStr.len s.
Proof.
  unfold PyStr.len. induction s as [|c t IH]; cbn [PyStr.span_decimal].
  - reflexivity.
  - destruct (PyStr.is_decimal c); [|cbn; lia].
    destruct (PyStr.span_decimal t) as [ds rest]. cbn in *. lia.
Qed.

(** Group 1 of a match is a non-empty run of decimal digits, shorter
    than the text searched. *)
Lemma re_search_group u s g :
  PyStr.re_search u s = Some g →
  g ≠ "" ∧ PyStr.all_chars PyStr.is_decimal g = true
  ∧ PyStr.len g < PyStr.len s.
Proof.
  induction s as [|c t IH]; cbn [PyStr.re_search].
  - unfold PyStr.match_here. cbn. discriminate.
  - destruct (PyStr.match_here u (String c t)) as [g'|] eqn:E.
    + intros H. injection H as <-. unfold PyStr.match_here in E.
      pose proof (span_decimal_digits (String c t)) as Hd.
      pose proof (span_decimal_length (String c t)) as Hl.
      destruct (PyStr.span_decimal (String c t)) as [[|c0 ds] [|v rest]];
        try discriminate.
      destruct (Ascii.eqb v u); [|discriminate]. injection E as <-.
      split; [discriminate|]. split; [exact Hd|].
      unfold PyStr.len in *. cbn in *. lia.
    + intros H. destruct (IH H) as (Hg & Hd & Hl).
      split; [exact Hg|]. split; [exact Hd|].
      unfold PyStr.len in *. cbn. lia.
Qed.

Lemma int_decimal g :
  g ≠ "" → PyStr.all_chars PyStr.is_decimal g = true →
  PyStr.len g ≤ PyStr.max_str_digits →
  PyStr.int g = Return (PyStr.int_acc 0 g).
Proof.
  intros Hg Hd Hl. unfold PyStr.int. rewrite (span_decimal_all g Hd).
  destruct (Z.ltb_spec PyStr.max_str_digits (PyStr.len g)); [lia|].
  destruct g; [done | reflexivity].
Qed.

Lemma add_component_value total u s k :
  PyStr.len s ≤ PyStr.max_str_digits →
  add_component total (PyStr.re_search u s) k
  = Return (total + matched_value u s * k).
Proof.
  intros Hs. unfold add_component, matched_value.
  destruct (PyStr.re_search u s) as [g|] eqn:E.
  - destruct (re_search_group u s g E) as (Hg & Hd & Hl).
    rewrite (int_decimal g Hg Hd) by lia. reflexivity.
  - f_equal. lia.
Qed.

Lemma lower_len s : PyStr.len (PyStr.lower s) = PyStr.len s.
Proof.
  unfold PyStr.len. f_equal. induction s as [|c t IH]; cbn; congruence.
Qed.

(** [parse_time_string] on an input within [int]'s limit. *)
Lemma parse_time_string_decision s :
  PyStr.len s ≤ PyStr.max_str_digits →
  parse_time_string s
  = if String.eqb s "" || String.eqb (PyStr.lower s) "none"
    then Return None
    else
      let t := PyStr.lower s in
      if is_match (PyStr.re_search "h" t) || is_match (PyStr.re_search "m" t)
         || is_match (PyStr.re_search "d" t)
      then Return (positive_or_none
                     (matched_value "h" t * 60 + matched_value "m" t * 1
                      + matched_value "d" t * (24 * 60)))
      else if PyStr.isdigit t
      then match PyStr.int t with
           | Return n => Return (positive_or_none n)
           | Raise e => Raise e
           end
      else Return None.
Proof.
  intros Hs. unfold parse_time_string.
  destruct (String.eqb s "" || String.eqb (PyStr.lower s) "none");
    [reflexivity|].
  cbv zeta. rewrite !add_component_value by (rewrite lower_len; exact Hs).
  reflexivity.
Qed.

Lemma lower_char_digit c :
  PyStr.is_digit_char (PyStr.lower_char c) = true → PyStr.lower_char c = c.
Proof.
  destruct c as [[] [] [] [] [] [] [] []]; vm_compute; congruence.
Qed.

Lemma lower_isdigit s :
  PyStr.all_chars PyStr.is_digit_char (PyStr.lower s) = true →
  PyStr.lower s = s.
Proof.
  induction s as [|c t IH]; cbn; [reflexivity|].
  intros H. apply andb_true_iff in H as [Hc Ht].
  rewrite (lower_char_digit c Hc), (IH Ht). reflexivity.
Qed.

Lemma positive_or_none_cases n :
  positive_or_none n = None ∨ ∃ m, positive_or_none n = Some m ∧ 0 < m.
Proof.
  unfold positive_or_none. destruct (Z.ltb_spec 0 n); [right|left]; eauto.
Qed.

(** ** [update_credits] *)

Lemma update_credits_present now d user_id amount u :
  users d !! user_id = Some u →
  update_credits now user_id amount d
  = (true,
     set_users
       (insert user_id
          {| username := username u;
             credits := credits u + amount;
             joined_date := joined_date u;
             referrer_id := referrer_id u;
             is_banned := is_banned u;
             total_earned := if 0 <? amount then total_earned u + amount
                             else total_earned u;
             last_active := sql_datetime_now now |}) d).
Proof.
  intros Hu. unfold update_credits, update_credits_body. run_sql.
  destruct (0 <? amount);
    rewrite (update_user_credits_present _ _ _ u) by exact Hu;
    reflexivity.
Qed.

Lemma in_int64_spec n :
  in_int64 n = true
  ↔ -9223372036854775808 ≤ n ≤ 9223372036854775807.
Proof. unfold in_int64. rewrite andb_true_iff, !Z.leb_le. reflexivity. Qed.

(** C6, within SQLite's integers.  For a user that exists and an amount
    that fits 64 bits, sums included, [update_credits] with a positive
    amount adds it to both [credits] and [total_earned]; with a zero or
    negative amount it adds it to [credits] only, with no floor; either
    way [last_active] is overwritten with the current time, and nothing
    else in the database changes.  An amount that does not fit is
    refused: the call returns [False] and nothing changes. *)
Theorem update_credits_existing_user now d user_id amt u :
  users d !! user_id = Some u →
  in_int64 user_id = true →
  (in_int64 amt = false → Py.update_credits now user_id amt d = (false, d))
  ∧ (in_int64 amt = true →
     in_int64 (credits u + amt) = true →
     (0 < amt → in_int64 (total_earned u + amt) = true) →
     ∃ u',
       Py.update_credits now user_id amt d
       = (true, set_users (insert user_id u') d)
       ∧ credits u' = credits u + amt
       ∧ (0 < amt → total_earned u' = total_earned u + amt)
       ∧ (amt ≤ 0 → total_earned u' = total_earned u)
       ∧ last_active u' = sql_datetime_now now
       ∧ username u' = username u
       ∧ joined_date u' = joined_date u
       ∧ referrer_id u' = referrer_id u
       ∧ is_banned u' = is_banned u).
Proof.
  intros Hu Hid. unfold Py.update_credits. rewrite Hid. split.
  - intros ->. reflexivity.
  - intros -> _ _. cbn [andb].
    rewrite (update_credits_present now d user_id amt u Hu).
    eexists. split; [reflexivity|]. cbn.
    destruct (Z.ltb_spec 0 amt); repeat split; intros; lia.
Qed.

Lemma update_credits_existing_user_witness :
  ∃ u',
    Py.update_credits 61000000 7 (-6) (shop (IsoText 0))
    = (true, set_users (insert 7 u') (shop (IsoText 0)))
    ∧ credits u' = credits ann + -6
    ∧ (0 < -6 → total_earned u' = total_earned ann + -6)
    ∧ (-6 ≤ 0 → total_earned u' = total_earned ann)
    ∧ last_active u' = sql_datetime_now 61000000
    ∧ username u' = username ann
    ∧ joined_date u' = joined_date ann
    ∧ referrer_id u' = referrer_id ann
    ∧ is_banned u' = is_banned ann.
Proof.
  apply (update_credits_existing_user 61000000 (shop (IsoText 0)) 7 (-6) ann);
    first [reflexivity | lia].
Defined.

(** The statement of C6 for every amount fails: an amount of 2^63 is
    not credited, the call returns [False]. *)
Lemma update_credits_refuses_large_amount :
  users (shop (IsoText 0)) !! 7 = Some ann
  ∧ Py.update_credits 61000000 7 (2 ^ 63) (shop (IsoText 0))
    = (false, shop (IsoText 0)).
Proof. split; reflexivity. Qed.

(** C10, within SQLite's integers.  For an identity with no row in
    [users], [update_credits] leaves the database as it was; it returns
    [True] when the amount and the identity fit 64 bits, and [False]
    when one of them does not. *)
Theorem update_credits_missing_user now d user_id amt :
  users d !! user_id = None →
  Py.update_credits now user_id amt d
  = (in_int64 amt && in_int64 user_id, d).
Proof.
  intros Hu. unfold Py.update_credits.
  destruct (in_int64 amt && in_int64 user_id); [|reflexivity].
  unfold update_credits, update_credits_body. run_sql.
  destruct (0 <? amt);
    rewrite update_user_credits_absent by exact Hu; reflexivity.
Qed.

Lemma update_credits_missing_user_witness :
  Py.update_credits 5 42 10 empty_db = (true, empty_db).
Proof.
  apply (update_credits_missing_user 5 empty_db 42 10). reflexivity.
Defined.

(** The statement of C10 for every amount fails: with an amount of 2^63
    the call returns [False]. *)
Lemma update_credits_missing_user_large_amount :
  users empty_db !! 42 = None
  ∧ Py.update_credits 5 42 (2 ^ 63) empty_db = (false, empty_db).
Proof. split; reflexivity. Qed.

(** ** [redeem_code_db] *)

Lemma update_code_present code f c (k : conn) :
  redeem_codes (txn k) !! code = Some c →
  0 ≤ current_uses (f c) →
  update_code code f k
  = (Return tt,
     {| disk := disk k; txn := set_codes (insert code (f c)) (txn k) |}).
Proof.
  intros Hc Hpos. unfold update_code, execute. rewrite Hc.
  destruct (0 <=? current_uses (f c)) eqn:E; [|lia].
  unfold set_codes. rewrite (alter_present f code c) by done. reflexivity.
Qed.

Lemma insert_log_fresh l (k : conn) :
  claimed (log_user_id l) (log_code l) (txn k) = false →
  insert_log l k
  = (Return tt,
     {| disk := disk k; txn := set_logs (λ ls, (ls ++ [l])%list) (txn k) |}).
Proof. intros Hl. unfold insert_log, execute. rewrite Hl. reflexivity. Qed.

(** The guard and [try] block of the expiry check decide exactly
    [expiry_elapsed]. *)
Lemma expiry_check_elapsed now c :
  match expiry_minutes c with
  | Some m => (0 <? m) && expiry_passed now m (created_date c)
  | None => false
  end = expiry_elapsed now c.
Proof.
  unfold expiry_elapsed, expiry_passed.
  destruct (expiry_minutes c) as [m|]; [|reflexivity].
  destruct (created_date c); [reflexivity|]. apply andb_false_r.
Qed.

Lemma redeem_code_db_decision now d user_id code :
  check_constraints d →
  redeem_code_db now user_id code d
  = match users d !! user_id with
    | None => (user_not_found, d)
    | Some u =>
        if claimed user_id code d then (already_claimed, d)
        else
          match redeem_codes d !! code with
          | None => (invalid, d)
          | Some c =>
              if is_active c =? 0 then (inactive, d)
              else if max_uses c <=? current_uses c then (limit_reached, d)
              else if expiry_elapsed now c then (expired, d)
              else (credited (amount c), redeemed now user_id code u c d)
          end
    end.
Proof.
  intros Hck. unfold redeem_code_db, redeem_code_db_body. run_sql.
  destruct (users d !! user_id) as [u|] eqn:Hu; run_sql; [|reflexivity].
  destruct (claimed user_id code d) eqn:Hcl; run_sql; [reflexivity|].
  destruct (redeem_codes d !! code) as [c|] eqn:Hc; run_sql; [|reflexivity].
  destruct (is_active c =? 0) eqn:Hact; run_sql; [reflexivity|].
  destruct (max_uses c <=? current_uses c) eqn:Hlim; run_sql; [reflexivity|].
  rewrite expiry_check_elapsed.
  destruct (expiry_elapsed now c); run_sql; [reflexivity|].
  destruct (Hck code c Hc) as (_ & _ & Huses).
  rewrite (update_code_present code _ c) by (cbn; first [exact Hc | lia]).
  run_sql.
  rewrite (update_user_credits_present _ _ _ u) by exact Hu.
  rewrite insert_log_fresh by exact Hcl.
  reflexivity.
Qed.

(** The SELECT on [redeem_logs] finds a row exactly when a redemption
    record of the user and the code exists. *)
Lemma claimed_has_redeemed user_id code d :
  claimed user_id code d = true ↔ has_redeemed user_id code d.
Proof.
  unfold claimed, has_redeemed. rewrite existsb_exists. split.
  - intros (l & Hin & H). apply andb_true_iff in H as [Hu Hc].
    exists l. split; [apply list_elem_of_In, Hin|].
    split; [apply Z.eqb_eq, Hu | apply String.eqb_eq, Hc].
  - intros (l & Hin & Hu & Hc). exists l.
    split; [apply list_elem_of_In, Hin|].
    apply andb_true_iff.
    split; [apply Z.eqb_eq, Hu | apply String.eqb_eq, Hc].
Qed.

Lemma shop_check_constraints created : check_constraints (shop created).
Proof.
  intros code c Hc. cbn in Hc.
  apply lookup_singleton_Some in Hc as [_ <-]. cbn. lia.
Qed.

(** C1. For an identity that SQLite can hold, [redeem_code_db] runs its
    checks in the order user, prior claim, code, active flag, use limit,
    expiry, and returns the outcome of the first one that fails, leaving
    the database as it was; when all pass it adds one use to the code,
    adds the code's amount to the user's [credits] and [total_earned],
    appends the redemption record and returns the amount.  (An integer
    beyond 64 bits is the identity of no row; the call answers it with
    the generic failure and changes nothing.) *)
Theorem redeem_code_db_ordered_checks now d user_id code :
  check_constraints d →
  let result := Py.redeem_code_db now user_id code d in
  (in_int64 user_id = false
   → result = (error ("error: " ++ int_too_large), d))
  ∧ (in_int64 user_id = true →
     (users d !! user_id = None → result = (user_not_found, d))
     ∧ (∀ u, users d !! user_id = Some u →
        (has_redeemed user_id code d → result = (already_claimed, d))
        ∧ (¬ has_redeemed user_id code d →
           (redeem_codes d !! code = None → result = (invalid, d))
           ∧ (∀ c, redeem_codes d !! code = Some c →
              (is_active c = 0 → result = (inactive, d))
              ∧ (is_active c ≠ 0 →
                 (max_uses c ≤ current_uses c
                  → result = (limit_reached, d))
                 ∧ (current_uses c < max_uses c →
                    (expiry_elapsed now c = true → result = (expired, d))
                    ∧ (expiry_elapsed now c = false →
                       in_int64 (credits u + amount c) = true →
                       in_int64 (total_earned u + amount c) = true →
                       result
                       = (credited (amount c),
                          redeemed now user_id code u c d)))))))
     ∧ ((∀ a, result.1 ≠ credited a) → result.2 = d)
     ∧ (∀ msg, result.1 ≠ error msg)).
Proof.
  intros Hck result. subst result. unfold Py.redeem_code_db.
  split; [intros ->; reflexivity|]. intros ->.
  rewrite (redeem_code_db_decision now d user_id code Hck).
  destruct (users d !! user_id) as [u|] eqn:Hu.
  2:{ split; [reflexivity|]. split; [discriminate|].
      split; [reflexivity | discriminate]. }
  split; [discriminate|].
  destruct (claimed user_id code d) eqn:Hcl.
  { apply claimed_has_redeemed in Hcl.
    split; [|split; [reflexivity | discriminate]].
    intros u' [= <-]. split; [reflexivity | done]. }
  assert (¬ has_redeemed user_id code d) as Hnot.
  { intros H. apply claimed_has_redeemed in H. congruence. }
  destruct (redeem_codes d !! code) as [c|] eqn:Hc.
  2:{ split; [|split; [reflexivity | discriminate]].
      intros u' [= <-]. split; [done|]. intros _.
      split; [reflexivity | discriminate]. }
  destruct (Z.eqb_spec (is_active c) 0) as [Ha|Ha].
  { split; [|split; [reflexivity | discriminate]].
    intros u' [= <-]. split; [done|]. intros _. split; [discriminate|].
    intros c' [= <-]. split; [reflexivity | done]. }
  destruct (Z.leb_spec (max_uses c) (current_uses c)) as [Hm|Hm].
  { split; [|split; [reflexivity | discriminate]].
    intros u' [= <-]. split; [done|]. intros _. split; [discriminate|].
    intros c' [= <-]. split; [done|]. intros _.
    split; [reflexivity | lia]. }
  destruct (expiry_elapsed now c) eqn:He.
  { split; [|split; [reflexivity | discriminate]].
    intros u' [= <-]. split; [done|]. intros _. split; [discriminate|].
    intros c' [= <-]. split; [done|]. intros _. split; [lia|]. intros _.
    split; [reflexivity | intros; congruence]. }
  split; [|split; [|discriminate]].
  - intros u' [= <-]. split; [done|]. intros _. split; [discriminate|].
    intros c' [= <-]. split; [done|]. intros _. split; [lia|]. intros _.
    split; [intros; congruence | reflexivity].
  - intros H. exfalso. exact (H (amount c) eq_refl).
Qed.

Lemma redeem_code_db_ordered_checks_witness :
  Py.redeem_code_db (60 * us_per_second) 7 "GIFT" (shop (IsoText 0))
  = (credited 10,
     redeemed (60 * us_per_second) 7 "GIFT" ann (gift (IsoText 0))
       (shop (IsoText 0))).
Proof.
  destruct (redeem_code_db_ordered_checks (60 * us_per_second)
              (shop (IsoText 0)) 7 "GIFT" (shop_check_constraints _))
    as (_ & H).
  destruct (H eq_refl) as (_ & H1 & _).
  destruct (H1 ann eq_refl) as (_ & H2).
  assert (¬ has_redeemed 7 "GIFT" (shop (IsoText 0))) as Hnot.
  { intros (l & Hin & _). cbn in Hin. apply elem_of_nil in Hin. exact Hin. }
  destruct (H2 Hnot) as (_ & H3).
  destruct (H3 (gift (IsoText 0)) eq_refl) as (_ & H4).
  destruct (H4 ltac:(discriminate)) as (_ & H5).
  destruct (H5 ltac:(cbn; lia)) as (_ & H6).
  exact (H6 eq_refl eq_refl eq_refl).
Defined.



(** ** [add_user] *)

Lemma insert_user_fresh user_id u (k : conn) :
  users (txn k) !! user_id = None →
  insert_user user_id u k
  = (Return tt,
     {| disk := disk k; txn := set_users (insert user_id u) (txn k) |}).
Proof. intros Hu. unfold insert_user, execute. rewrite Hu. reflexivity. Qed.

Lemma add_user_fresh now d user_id uname referrer :
  users d !! user_id = None →
  add_user now user_id uname referrer d
  = (true,
     set_users
       (insert user_id
          {| username := default "" uname; credits := 5;
             joined_date := IsoText now; referrer_id := referrer;
             is_banned := 0; total_earned := 0;
             last_active := IsoText now |})
       match referrer with
       | Some r =>
           if r =? 0 then d
           else
             match users d !! r with
             | Some ur =>
                 set_users
                   (insert r
                      {| username := username ur;
                         credits := credits ur + 3;
                         joined_date := joined_date ur;
                         referrer_id := referrer_id ur;
                         is_banned := is_banned ur;
                         total_earned := total_earned ur + 3;
                         last_active := sql_datetime_now now |}) d
             | None => d
             end
       | None => d
       end).
Proof.
  intros Hu. unfold add_user, add_user_body. run_sql. rewrite Hu. run_sql.
  destruct referrer as [r|]; run_sql.
  - unfold truthy. destruct (r =? 0) eqn:Hr; cbn [negb]; run_sql.
    + rewrite insert_user_fresh by exact Hu. reflexivity.
    + destruct (users d !! r) as [ur|] eqn:Hur; run_sql.
      * rewrite (update_user_credits_present _ _ _ ur) by exact Hur.
        rewrite insert_user_fresh; [reflexivity|].
        cbn. rewrite lookup_insert_ne; [exact Hu|]. congruence.
      * rewrite insert_user_fresh by exact Hu. reflexivity.
  - rewrite insert_user_fresh by exact Hu. reflexivity.
Qed.

(** C5, at the input where the code departs from it.  Identity 0 has a
    row; [add_user] for the fresh identity 9 with referrer 0 succeeds
    and stores the link to 0 on the new row, but gives the referrer no
    bonus: the guard [if referrer_id:] takes the identity 0 for "no
    referrer", although the comments of the code say "If referrer
    exists, give bonus to referrer". *)
Theorem add_user_referrer_zero_no_bonus :
  let d := set_users (insert 0 ann) empty_db in
  let result := Py.add_user 1 9 None (Some 0) d in
  users d !! 9 = None
  ∧ users d !! 0 = Some ann
  ∧ result.1 = true
  ∧ referrer_id <$> users result.2 !! 9 = Some (Some 0)
  ∧ credits <$> users result.2 !! 9 = Some 5
  ∧ users result.2 !! 0 = Some ann
  ∧ credits <$> users result.2 !! 0 ≠ Some (credits ann + 3).
Proof.
  intros d result. subst d result.
  repeat (split; [reflexivity|]). vm_compute. discriminate.
Qed.

(** X24. For a fresh identity and a referrer that SQLite can hold,
    [add_user] returns [True] and stores the new row with 5 credits and
    the referrer identity as given.  When that identity is not 0 and is
    the key of an existing row, that row first gets 3 more [credits] and
    3 more [total_earned], in the same commit; when it is absent, is 0,
    or has no row, no bonus is given and nothing but the new row is
    stored.  A referrer beyond 64 bits is refused: the call returns
    [False] and stores nothing. *)
Theorem add_user_fresh_identity now d user_id uname referrer :
  users d !! user_id = None →
  in_int64 user_id = true →
  let new_row :=
    {| username := default "" uname; credits := 5;
       joined_date := IsoText now; referrer_id := referrer;
       is_banned := 0; total_earned := 0; last_active := IsoText now |} in
  let result := Py.add_user now user_id uname referrer d in
  (bindable referrer = false → result = (false, d))
  ∧ (bindable referrer = true →
     result.1 = true
     ∧ users result.2 !! user_id = Some new_row
     ∧ (∀ r ur,
          referrer = Some r → r ≠ 0 → users d !! r = Some ur →
          in_int64 (credits ur + 3) = true →
          in_int64 (total_earned ur + 3) = true →
          result
          = (true,
             set_users (insert user_id new_row)
               (set_users
                  (insert r
                     {| username := username ur;
                        credits := credits ur + 3;
                        joined_date := joined_date ur;
                        referrer_id := referrer_id ur;
                        is_banned := is_banned ur;
                        total_earned := total_earned ur + 3;
                        last_active := sql_datetime_now now |}) d)))
     ∧ (referrer = None ∨ referrer = Some 0
        ∨ (∃ r, referrer = Some r ∧ users d !! r = None) →
        result = (true, set_users (insert user_id new_row) d))).
Proof.
  intros Hu Hid new_row result. subst result. unfold Py.add_user.
  rewrite Hid. cbn [andb]. split; [intros ->; reflexivity|]. intros ->.
  rewrite (add_user_fresh now d user_id uname referrer Hu).
  fold new_row. split; [reflexivity|]. split.
  { cbn. apply lookup_insert_eq. }
  split.
  - intros r ur -> Hr Hur _ _. destruct (Z.eqb_spec r 0); [done|].
    rewrite Hur. reflexivity.
  - intros [-> | [-> | (r & -> & Hr)]]; [reflexivity | reflexivity |].
    rewrite Hr. destruct (r =? 0); reflexivity.
Qed.

Lemma add_user_fresh_identity_witness :
  let d' := (Py.add_user 1500000 9 None (Some 7) (shop (IsoText 0))).2 in
  credits <$> users d' !! 7 = Some 8
  ∧ total_earned <$> users d' !! 7 = Some 3
  ∧ credits <$> users d' !! 9 = Some 5
  ∧ referrer_id <$> users d' !! 9 = Some (Some 7).
Proof.
  intros d'. subst d'.
  destruct (add_user_fresh_identity 1500000 (shop (IsoText 0)) 9 None (Some 7)
              eq_refl eq_refl) as (_ & H).
  destruct (H eq_refl) as (_ & _ & Hbonus & _).
  rewrite (Hbonus 7 ann eq_refl ltac:(discriminate) eq_refl eq_refl eq_refl).
  repeat split; vm_compute; reflexivity.
Defined.

(** ** [create_redeem_code] *)

Lemma create_redeem_code_decision now d code amt uses expiry :
  create_redeem_code now code amt uses expiry d
  = match redeem_codes d !! code with
    | Some _ => ((false, "Code already exists"), d)
    | None =>
        if amt <=? 0 then ((false, "Amount must be positive"), d)
        else if uses <=? 0 then ((false, "Max uses must be positive"), d)
        else ((true, "Code created successfully"),
              cleanup_expired_codes_trigger now
                (set_codes
                   (insert code
                      {| amount := amt; max_uses := uses;
                         current_uses := 0; expiry_minutes := expiry;
                         created_date := IsoText now; is_active := 1 |}) d))
    end.
Proof.
  unfold create_redeem_code, create_redeem_code_body. run_sql.
  destruct (redeem_codes d !! code) eqn:Hc; run_sql; [reflexivity|].
  destruct (Z.leb_spec amt 0); run_sql; [reflexivity|].
  destruct (Z.leb_spec uses 0); run_sql; [reflexivity|].
  unfold insert_code, execute. cbn [txn amount max_uses current_uses].
  rewrite Hc.
  destruct (Z.ltb_spec 0 amt); [|lia].
  destruct (Z.ltb_spec 0 uses); [|lia].
  reflexivity.
Qed.

(** The trigger switches off rows with a positive [expiry_minutes]
    only. *)
Lemma sql_expired_positive now c :
  sql_expired now c = true → ∃ m, expiry_minutes c = Some m ∧ 0 < m.
Proof.
  unfold sql_expired. destruct (expiry_minutes c) as [m|]; [|done].
  destruct (created_date c); [|done].
  intros H. apply andb_true_iff in H as [Hm _]. exists m.
  split; [reflexivity | apply Z.ltb_lt, Hm].
Qed.

Lemma trigger_row now c :
  kept_or_switched_off c (if sql_expired now c then set_is_active 0 c else c).
Proof.
  destruct (sql_expired now c) eqn:E; [right | left; reflexivity].
  split; [reflexivity | exact (sql_expired_positive now c E)].
Qed.

(** C7, within SQLite's integers.  [create_redeem_code] fails with
    "Code already exists" and stores nothing when the code is present;
    fails with a message and stores nothing when the amount or the
    number of uses is not positive; fails with the message of the
    [OverflowError] and stores nothing when the amount, the number of
    uses or the expiry does not fit 64 bits; otherwise it succeeds and
    stores exactly one new row, for this code, with no uses, every
    other table as it was.  The AFTER INSERT trigger runs on the table
    with the new row in it: each row, the new one included, is left as
    it is or, if it has a positive expiry, is switched off. *)
Theorem create_redeem_code_outcomes now d code amt uses expiry :
  let result := Py.create_redeem_code now code amt uses expiry d in
  let fits := in_int64 amt && in_int64 uses && bindable expiry in
  (is_Some (redeem_codes d !! code) →
     result = ((false, "Code already exists"), d))
  ∧ (amt ≤ 0 ∨ uses ≤ 0 →
     result.1.1 = false ∧ result.2 = d ∧
     (redeem_codes d !! code = None →
      result.1.2 = if amt <=? 0 then "Amount must be positive"
                   else "Max uses must be positive"))
  ∧ (redeem_codes d !! code = None → 0 < amt → 0 < uses → fits = false →
     result = ((false, "Error: " ++ int_too_large), d))
  ∧ (redeem_codes d !! code = None → 0 < amt → 0 < uses → fits = true →
     result.1 = (true, "Code created successfully") ∧
     (∃ row,
        redeem_codes result.2 !! code = Some row ∧
        kept_or_switched_off
          {| amount := amt; max_uses := uses; current_uses := 0;
             expiry_minutes := expiry; created_date := IsoText now;
             is_active := 1 |} row) ∧
     dom (redeem_codes result.2) = {[ code ]} ∪ dom (redeem_codes d) ∧
     (∀ other c, other ≠ code → redeem_codes d !! other = Some c →
        ∃ c', redeem_codes result.2 !! other = Some c'
              ∧ kept_or_switched_off c c') ∧
     users result.2 = users d ∧
     admins result.2 = admins d ∧
     redeem_logs result.2 = redeem_logs d).
Proof.
  intros result fits. subst result fits. unfold Py.create_redeem_code.
  rewrite create_redeem_code_decision.
  split; [|split; [|split]].
  - intros [c Hc]. rewrite Hc. destruct (_ && _); reflexivity.
  - intros Hbad. destruct (redeem_codes d !! code) eqn:Hc.
    + destruct (_ && _); repeat split; discriminate.
    + destruct (Z.leb_spec amt 0); [destruct (_ && _); repeat split|].
      destruct (Z.leb_spec uses 0); [destruct (_ && _); repeat split|]. lia.
  - intros Hc Ha Hu ->. rewrite Hc.
    destruct (Z.leb_spec amt 0); [lia|].
    destruct (Z.leb_spec uses 0); [lia|]. reflexivity.
  - intros Hc Ha Hu ->. rewrite Hc.
    destruct (Z.leb_spec amt 0); [lia|].
    destruct (Z.leb_spec uses 0); [lia|].
    cbn. split; [reflexivity|].
    split.
    { eexists. rewrite lookup_fmap, lookup_insert_eq. cbn.
      split; [reflexivity | apply trigger_row]. }
    split.
    { rewrite dom_fmap_L, dom_insert_L. reflexivity. }
    split.
    { intros other c Hne Ho. eexists.
      rewrite lookup_fmap, lookup_insert_ne, Ho by done. cbn.
      split; [reflexivity | apply trigger_row]. }
    repeat split.
Qed.

(** The statement of C7 for every amount fails: with the amount 2^63,
    a fresh code and one use the call stores nothing and returns the
    message of the [OverflowError]. *)
Lemma create_redeem_code_refuses_large_amount :
  redeem_codes empty_db !! "BIG" = None
  ∧ Py.create_redeem_code 0 "BIG" (2 ^ 63) 1 None empty_db
    = ((false, "Error: Python int too large to convert to SQLite INTEGER"),
       empty_db).
Proof. split; reflexivity. Qed.

(** ** Invariants of the stored database *)

Section Preserves.
Context (P : DB → Prop).

Lemma preserves_ret {A} (a : A) : preserves P (mret a).
Proof. intros k Hd Ht. split; assumption. Qed.

Lemma preserves_bind {A B} (m : sql A) (f : A → sql B) :
  preserves P m → (∀ a, preserves P (f a)) → preserves P (m ≫= f).
Proof.
  intros Hm Hf k Hd Ht. unfold mbind, sql_bind.
  destruct (Hm k Hd Ht) as [Hd' Ht'].
  destruct (m k) as [[a|e] k']; cbn in *; [|split; assumption].
  apply Hf; assumption.
Qed.

Lemma preserves_query {A} (q : DB → A) : preserves P (query q).
Proof. intros k Hd Ht. split; assumption. Qed.

Lemma preserves_execute (stmt : DB → py_result DB) :
  (∀ d d', P d → stmt d = Return d' → P d') → preserves P (execute stmt).
Proof.
  intros Hs k Hd Ht. unfold execute.
  destruct (stmt (txn k)) as [d'|e] eqn:E; cbn; [|split; assumption].
  split; [assumption|]. eapply Hs; eassumption.
Qed.

Lemma preserves_begin : preserves P begin_transaction.
Proof. intros k Hd Ht. split; assumption. Qed.

Lemma preserves_commit : preserves P commit.
Proof. intros k Hd Ht. split; assumption. Qed.

Lemma preserves_rollback : preserves P rollback.
Proof. intros k Hd Ht. split; assumption. Qed.

Lemma with_connection_preserves {A} (body : sql A) (h : exn → A) d :
  preserves P body → P d → P (with_connection body h d).2.
Proof.
  intros Hb Hd. unfold with_connection.
  destruct (Hb (connect d) Hd Hd) as [Hd' _].
  destruct (body (connect d)) as [[a|e] k]; exact Hd'.
Qed.
End Preserves.

Ltac unfold_writers :=
  unfold add_user, update_credits, set_ban_status, create_redeem_code,
         add_admin, remove_admin, delete_redeem_code, deactivate_code,
         delete_user, reset_user_credits, update_last_active,
         bulk_update_credits, cleanup_expired_codes.

Ltac preserves_step :=
  first
    [ apply preserves_ret
    | apply preserves_query
    | apply preserves_begin
    | apply preserves_commit
    | apply preserves_rollback
    | apply preserves_bind; [|intros ?]
    | match goal with
      | |- preserves _ (match ?x with _ => _ end) => destruct x
      end ].

(** *** The code table *)

Lemma codes_ok_frame d d' :
  redeem_codes d' = redeem_codes d → codes_ok d → codes_ok d'.
Proof.
  intros E [Hc Hu]. split; intros code c H; rewrite E in H; eauto.
Qed.

Lemma codes_ok_row d code c :
  codes_ok d → redeem_codes d !! code = Some c →
  0 < amount c ∧ 0 < max_uses c ∧ 0 ≤ current_uses c ≤ max_uses c.
Proof.
  intros [Hc Hu] H. destruct (Hc code c H) as (? & ? & ?).
  specialize (Hu code c H). lia.
Qed.

Lemma codes_ok_intro d :
  (∀ code c, redeem_codes d !! code = Some c →
             0 < amount c ∧ 0 < max_uses c ∧ 0 ≤ current_uses c ≤ max_uses c) →
  codes_ok d.
Proof.
  intros H. split; intros code c Hc; destruct (H code c Hc) as (? & ? & ?);
    [repeat split|]; lia.
Qed.

(** Rewriting rows by a map that keeps the three counters. *)
Lemma codes_ok_fmap (f : code_row → code_row) d :
  (∀ c, amount (f c) = amount c ∧ max_uses (f c) = max_uses c
        ∧ current_uses (f c) = current_uses c) →
  codes_ok d → codes_ok (set_codes (fmap f) d).
Proof.
  intros Hf Hd. apply codes_ok_intro. intros code c' H. cbn in H.
  rewrite lookup_fmap in H.
  destruct (redeem_codes d !! code) as [c|] eqn:E; [|discriminate].
  injection H as <-. destruct (Hf c) as (-> & -> & ->).
  eapply codes_ok_row; eassumption.
Qed.

Lemma codes_ok_alter (f : code_row → code_row) code d :
  (∀ c, amount (f c) = amount c ∧ max_uses (f c) = max_uses c
        ∧ current_uses (f c) = current_uses c) →
  codes_ok d → codes_ok (set_codes (alter f code) d).
Proof.
  intros Hf Hd. apply codes_ok_intro. intros code' c' H. cbn in H.
  destruct (decide (code = code')) as [->|Hne].
  - rewrite lookup_alter_eq in H.
    destruct (redeem_codes d !! code') as [c|] eqn:E; [|discriminate].
    injection H as <-. destruct (Hf c) as (-> & -> & ->).
    eapply codes_ok_row; eassumption.
  - rewrite lookup_alter_ne in H by done. eapply codes_ok_row; eassumption.
Qed.

Lemma codes_ok_insert code c d :
  0 < amount c → 0 < max_uses c → 0 ≤ current_uses c ≤ max_uses c →
  codes_ok d → codes_ok (set_codes (insert code c) d).
Proof.
  intros Ha Hm Hu Hd. apply codes_ok_intro. intros code' c' H. cbn in H.
  destruct (decide (code = code')) as [->|Hne].
  - rewrite lookup_insert_eq in H. injection H as <-. lia.
  - rewrite lookup_insert_ne in H by done. eapply codes_ok_row; eassumption.
Qed.

Lemma codes_ok_delete code d :
  codes_ok d → codes_ok (set_codes (delete code) d).
Proof.
  intros Hd. apply codes_ok_intro. intros code' c' H. cbn in H.
  apply lookup_delete_Some in H as [_ H]. eapply codes_ok_row; eassumption.
Qed.

Lemma deactivate_keeps_counters (b : code_row → bool) c :
  amount (if b c then set_is_active 0 c else c) = amount c
  ∧ max_uses (if b c then set_is_active 0 c else c) = max_uses c
  ∧ current_uses (if b c then set_is_active 0 c else c) = current_uses c.
Proof. destruct (b c); repeat split. Qed.

Lemma update_user_credits_codes_ok now user_id f :
  preserves codes_ok (update_user_credits now user_id f).
Proof.
  apply preserves_execute. intros d d' Hd E.
  destruct (users d !! user_id); injection E as <-; [|assumption].
  eapply codes_ok_frame; [|eassumption]. reflexivity.
Qed.

Lemma update_user_codes_ok user_id f :
  preserves codes_ok (update_user user_id f).
Proof.
  apply preserves_execute. intros d d' Hd E. injection E as <-.
  eapply codes_ok_frame; [|eassumption]. reflexivity.
Qed.

Lemma insert_user_codes_ok user_id u :
  preserves codes_ok (insert_user user_id u).
Proof.
  apply preserves_execute. intros d d' Hd E.
  destruct (users d !! user_id); [discriminate|]. injection E as <-.
  eapply codes_ok_frame; [|eassumption]. reflexivity.
Qed.

Lemma insert_code_codes_ok now code c :
  current_uses c = 0 → preserves codes_ok (insert_code now code c).
Proof.
  intros Hle. apply preserves_execute. intros d d' Hd E.
  destruct (redeem_codes d !! code); [discriminate|].
  destruct ((0 <? amount c) && (0 <? max_uses c) && (0 <=? current_uses c))
    eqn:Hchk; [|discriminate].
  injection E as <-.
  apply andb_true_iff in Hchk as [Hchk H3].
  apply andb_true_iff in Hchk as [H1 H2].
  apply codes_ok_fmap; [apply deactivate_keeps_counters|].
  apply codes_ok_insert; [lia | lia | lia | assumption].
Qed.

Lemma deactivate_codes_ok code :
  preserves codes_ok (update_code code (set_is_active 0)).
Proof.
  apply preserves_execute. intros d d' Hd E.
  destruct (redeem_codes d !! code) as [c|]; [|injection E as <-; assumption].
  destruct (0 <=? current_uses (set_is_active 0 c)); [|discriminate].
  injection E as <-. apply codes_ok_alter; [|assumption].
  intros c0. repeat split.
Qed.

Lemma bulk_update_loop_codes_ok now user_ids amt :
  preserves codes_ok (bulk_update_loop now user_ids amt).
Proof.
  induction user_ids as [|user_id rest IH]; cbn [bulk_update_loop].
  - apply preserves_ret.
  - apply preserves_bind; [|intros _; exact IH].
    destruct (0 <? amt); apply update_user_credits_codes_ok.
Qed.

Lemma redeem_code_db_codes_ok now user_id code d :
  codes_ok d → codes_ok (redeem_code_db now user_id code d).2.
Proof.
  intros Hd. rewrite redeem_code_db_decision by apply Hd.
  destruct (users d !! user_id) as [u|]; [|assumption].
  destruct (claimed user_id code d); [assumption|].
  destruct (redeem_codes d !! code) as [c|] eqn:Hc; [|assumption].
  destruct (is_active c =? 0); [assumption|].
  destruct (Z.leb_spec (max_uses c) (current_uses c)); [assumption|].
  destruct (expiry_elapsed now c); [assumption|].
  destruct (codes_ok_row d code c Hd Hc) as (? & ? & ?).
  apply codes_ok_intro. intros code' c' H'. cbn in H'.
  destruct (decide (code = code')) as [->|Hne].
  - rewrite lookup_insert_eq in H'. injection H' as <-. cbn. lia.
  - rewrite lookup_insert_ne in H' by done. eapply codes_ok_row; eassumption.
Qed.

(** Every writer keeps the code table within its constraints. *)
Lemma perform_codes_ok now c d : codes_ok d → codes_ok (perform now c d).
Proof.
  intros Hd.
  destruct c; cbn [perform];
    try (apply redeem_code_db_codes_ok; assumption);
    unfold_writers;
    (apply with_connection_preserves; [|assumption]);
    try unfold add_user_body; try unfold update_credits_body;
    try unfold create_redeem_code_body;
    repeat preserves_step;
    try apply update_user_credits_codes_ok;
    try apply update_user_codes_ok;
    try apply insert_user_codes_ok;
    try apply deactivate_codes_ok;
    try apply bulk_update_loop_codes_ok;
    try (apply insert_code_codes_ok; reflexivity);
    try (apply preserves_execute; intros d0 d' H0 E; injection E as <-);
    try (eapply codes_ok_frame; [|eassumption]; reflexivity);
    try (apply codes_ok_delete; assumption);
    try (apply codes_ok_fmap; [apply deactivate_keeps_counters | assumption]).
Qed.

Lemma history_codes_ok calls d : codes_ok d → codes_ok (history calls d).
Proof.
  revert d. induction calls as [|[now c] rest IH]; intros d Hd; cbn.
  - assumption.
  - apply IH, perform_codes_ok, Hd.
Qed.

Lemma empty_db_codes_ok : codes_ok empty_db.
Proof. apply codes_ok_intro. intros code c H. cbn in H. done. Qed.

(** C2. Every writer of [database.py] keeps [current_uses <= max_uses]
    on every code, so the bound holds after any sequence of calls on a
    new database.  A redemption of a code whose uses have reached the
    maximum credits nothing and changes nothing, and is answered
    "limit_reached" once the checks before it pass; a redemption that
    succeeds found the count below the maximum and adds exactly 1. *)
Theorem current_uses_never_exceed_max_uses :
  (∀ now c d,
     check_constraints d → uses_bounded d → uses_bounded (perform now c d))
  ∧ (∀ calls, uses_bounded (history calls empty_db))
  ∧ (∀ now d user_id code c,
       check_constraints d →
       redeem_codes d !! code = Some c →
       max_uses c ≤ current_uses c →
       (redeem_code_db now user_id code d).2 = d
       ∧ (∀ a, (redeem_code_db now user_id code d).1 ≠ credited a)
       ∧ (is_Some (users d !! user_id) →
          claimed user_id code d = false →
          is_active c ≠ 0 →
          (redeem_code_db now user_id code d).1 = limit_reached))
  ∧ (∀ now d user_id code a d',
       check_constraints d →
       redeem_code_db now user_id code d = (credited a, d') →
       ∃ c, redeem_codes d !! code = Some c
            ∧ current_uses c < max_uses c
            ∧ current_uses <$> redeem_codes d' !! code
              = Some (current_uses c + 1)).
Proof.
  split; [|split; [|split]].
  - intros now c d Hc Hu. apply (perform_codes_ok now c d). split; assumption.
  - intros calls. apply (history_codes_ok calls empty_db), empty_db_codes_ok.
  - intros now d user_id code c Hck Hc Hfull.
    rewrite (redeem_code_db_decision now d user_id code Hck), Hc.
    destruct (users d !! user_id) as [u|].
    2:{ repeat split; [discriminate | intros [? ?]; discriminate]. }
    destruct (claimed user_id code d).
    { repeat split; [discriminate | intros _ ?; discriminate]. }
    destruct (Z.eqb_spec (is_active c) 0).
    { repeat split; [discriminate | intros _ _ ?; contradiction]. }
    destruct (Z.leb_spec (max_uses c) (current_uses c)); [|lia].
    repeat split. discriminate.
  - intros now d user_id code a d' Hck.
    rewrite (redeem_code_db_decision now d user_id code Hck).
    destruct (users d !! user_id) as [u|]; [|discriminate].
    destruct (claimed user_id code d); [discriminate|].
    destruct (redeem_codes d !! code) as [c|]; [|discriminate].
    destruct (is_active c =? 0); [discriminate|].
    destruct (Z.leb_spec (max_uses c) (current_uses c)); [discriminate|].
    destruct (expiry_elapsed now c); [discriminate|].
    intros E. injection E as _ <-. exists c.
    split; [reflexivity|]. split; [assumption|].
    cbn. rewrite lookup_insert_eq. reflexivity.
Qed.

(** *** The users table *)

Lemma no_self_referrer_frame d d' :
  users d' = users d → no_self_referrer d → no_self_referrer d'.
Proof. intros E Hd user_id u H. rewrite E in H. eauto. Qed.

Lemma no_self_referrer_alter (f : user_row → user_row) user_id d :
  (∀ u, referrer_id (f u) = referrer_id u) →
  no_self_referrer d → no_self_referrer (set_users (alter f user_id) d).
Proof.
  intros Hf Hd uid u' H. cbn in H.
  destruct (decide (user_id = uid)) as [->|Hne].
  - rewrite lookup_alter_eq in H.
    destruct (users d !! uid) as [u|] eqn:E; [|discriminate].
    injection H as <-. rewrite Hf. eauto.
  - rewrite lookup_alter_ne in H by done. eauto.
Qed.

Lemma no_self_referrer_insert user_id u d :
  referrer_id u ≠ Some user_id →
  no_self_referrer d → no_self_referrer (set_users (insert user_id u) d).
Proof.
  intros Hu Hd uid u' H. cbn in H.
  destruct (decide (user_id = uid)) as [->|Hne].
  - rewrite lookup_insert_eq in H. injection H as <-. assumption.
  - rewrite lookup_insert_ne in H by done. eauto.
Qed.

Lemma no_self_referrer_delete user_id d :
  no_self_referrer d → no_self_referrer (set_users (delete user_id) d).
Proof.
  intros Hd uid u' H. cbn in H. apply lookup_delete_Some in H as [_ H]. eauto.
Qed.

Lemma update_user_credits_no_self_referrer now user_id f :
  (∀ u, referrer_id (f u) = referrer_id u) →
  preserves no_self_referrer (update_user_credits now user_id f).
Proof.
  intros Hf. apply preserves_execute. intros d d' Hd E.
  destruct (users d !! user_id); injection E as <-; [|assumption].
  apply no_self_referrer_alter; [reflexivity|].
  apply no_self_referrer_alter; assumption.
Qed.

Lemma update_user_no_self_referrer user_id f :
  (∀ u, referrer_id (f u) = referrer_id u) →
  preserves no_self_referrer (update_user user_id f).
Proof.
  intros Hf. apply preserves_execute. intros d d' Hd E. injection E as <-.
  apply no_self_referrer_alter; assumption.
Qed.

Lemma insert_user_no_self_referrer user_id u :
  referrer_id u ≠ Some user_id →
  preserves no_self_referrer (insert_user user_id u).
Proof.
  intros Hu. apply preserves_execute. intros d d' Hd E.
  destruct (users d !! user_id); [discriminate|]. injection E as <-.
  apply no_self_referrer_insert; assumption.
Qed.

Lemma insert_code_no_self_referrer now code c :
  preserves no_self_referrer (insert_code now code c).
Proof.
  apply preserves_execute. intros d d' Hd E.
  destruct (redeem_codes d !! code); [discriminate|].
  destruct ((0 <? amount c) && (0 <? max_uses c) && (0 <=? current_uses c));
    [|discriminate].
  injection E as <-. assumption.
Qed.

Lemma update_code_no_self_referrer code f :
  preserves no_self_referrer (update_code code f).
Proof.
  apply preserves_execute. intros d d' Hd E.
  destruct (redeem_codes d !! code) as [c|]; [|injection E as <-; assumption].
  destruct (0 <=? current_uses (f c)); [|discriminate].
  injection E as <-. assumption.
Qed.

Lemma insert_log_no_self_referrer l :
  preserves no_self_referrer (insert_log l).
Proof.
  apply preserves_execute. intros d d' Hd E.
  destruct (claimed (log_user_id l) (log_code l) d); [discriminate|].
  injection E as <-. assumption.
Qed.

Lemma bulk_update_loop_no_self_referrer now user_ids amt :
  preserves no_self_referrer (bulk_update_loop now user_ids amt).
Proof.
  induction user_ids as [|user_id rest IH]; cbn [bulk_update_loop].
  - apply preserves_ret.
  - apply preserves_bind; [|intros _; exact IH].
    destruct (0 <? amt);
      apply update_user_credits_no_self_referrer; reflexivity.
Qed.

(** Every writer keeps the users table free of self-referrals, provided
    [add_user] is not handed the new user as the referrer. *)
Lemma perform_no_self_referrer now c d :
  ¬ self_referral c →
  no_self_referrer d → no_self_referrer (perform now c d).
Proof.
  intros Hc Hd.
  destruct c; cbn [perform]; cbn [self_referral] in Hc;
    unfold_writers; unfold redeem_code_db;
    (apply with_connection_preserves; [|assumption]);
    try unfold add_user_body; try unfold update_credits_body;
    try unfold create_redeem_code_body; try unfold redeem_code_db_body;
    repeat preserves_step;
    try (apply update_user_credits_no_self_referrer; reflexivity);
    try (apply update_user_no_self_referrer; reflexivity);
    try (apply insert_user_no_self_referrer; cbn; congruence);
    try apply insert_code_no_self_referrer;
    try apply update_code_no_self_referrer;
    try apply insert_log_no_self_referrer;
    try apply bulk_update_loop_no_self_referrer;
    try (apply preserves_execute; intros d0 d' H0 E; injection E as <-);
    try assumption;
    try (apply no_self_referrer_delete; assumption).
Qed.

Lemma history_no_self_referrer calls d :
  Forall (λ nc : Z * call, ¬ self_referral nc.2) calls →
  no_self_referrer d → no_self_referrer (history calls d).
Proof.
  intros Hcalls. revert d.
  induction Hcalls as [|[now c] rest Hc _ IH]; intros d Hd; cbn.
  - assumption.
  - apply IH, perform_no_self_referrer; assumption.
Qed.

Lemma empty_db_no_self_referrer : no_self_referrer empty_db.
Proof. intros user_id u H. cbn in H. done. Qed.

(** C3, as the code has it.  [add_user] stores the referrer it is given:
    it keeps the users table free of rows that name themselves as
    referrer whenever the referrer it is given is not the user being
    added, and so does every other writer; hence no state reached by
    such calls holds a self-referring row. *)
Theorem add_user_keeps_no_self_referrer now user_id uname referrer calls d :
  referrer ≠ Some user_id →
  Forall (λ nc : Z * call, ¬ self_referral nc.2) calls →
  no_self_referrer d →
  no_self_referrer (add_user now user_id uname referrer d).2
  ∧ no_self_referrer
      (history calls (add_user now user_id uname referrer d).2).
Proof.
  intros Hr Hcalls Hd.
  assert (no_self_referrer (add_user now user_id uname referrer d).2) as H1.
  { apply (perform_no_self_referrer now (AddUser user_id uname referrer) d);
      assumption. }
  split; [exact H1|]. apply history_no_self_referrer; assumption.
Qed.

Lemma add_user_keeps_no_self_referrer_witness :
  no_self_referrer (add_user 0 7 (Some "ann") None empty_db).2
  ∧ no_self_referrer
      (history [(1, AddUser 9 None (Some 7)); (2, UpdateCredits 7 4)]
               (add_user 0 7 (Some "ann") None empty_db).2).
Proof.
  apply (add_user_keeps_no_self_referrer 0 7 (Some "ann") None
           [(1, AddUser 9 None (Some 7)); (2, UpdateCredits 7 4)] empty_db).
  - discriminate.
  - repeat constructor; cbn; [discriminate | tauto].
  - exact empty_db_no_self_referrer.
Defined.

(** The statement of C3 for every call fails: on the empty database,
    which has no self-referring row, [add_user(7, "ann", 7)] succeeds
    and stores user 7 with referrer 7. *)
Lemma add_user_stores_self_referral :
  no_self_referrer empty_db
  ∧ (add_user 0 7 (Some "ann") (Some 7) empty_db).1 = true
  ∧ ¬ no_self_referrer (add_user 0 7 (Some "ann") (Some 7) empty_db).2.
Proof.
  split; [exact empty_db_no_self_referrer|]. split; [reflexivity|].
  intros H.
  apply (H 7 {| username := "ann"; credits := 5; joined_date := IsoText 0;
                referrer_id := Some 7; is_banned := 0; total_earned := 0;
                last_active := IsoText 0 |});
    reflexivity.
Qed.

(** ** The time-window parser *)

(** C4, at the input where the code departs from it.  The string made
    of the character U+00B2 passes [str.isdigit], so the last branch of
    [parse_time_string] hands it to [int], which raises [ValueError]:
    the call neither returns a minute count nor "no expiry". *)
Theorem parse_time_string_superscript_raises :
  PyStr.isdigit superscript_two = true
  ∧ parse_time_string superscript_two
    = Raise (ValueError PyStr.invalid_literal).
Proof. split; reflexivity. Qed.

(** X1. On an input of at most 4300 characters the parser returns
    whenever [str.isdigit] and [int] agree on it, in particular when it
    is free of the superscript digits; what it returns is "no expiry"
    or a positive minute count. *)
Theorem parse_time_string_returns s :
  PyStr.len s ≤ PyStr.max_str_digits →
  (PyStr.isdigit s = true → PyStr.all_chars PyStr.is_decimal s = true) →
  ∃ r, parse_time_string s = Return r
       ∧ (r = None ∨ ∃ n, r = Some n ∧ 0 < n).
Proof.
  intros Hl Hs. rewrite parse_time_string_decision by exact Hl.
  destruct (String.eqb s "" || String.eqb (PyStr.lower s) "none");
    [eauto|].
  cbv zeta.
  destruct (is_match _ || is_match _ || is_match _).
  { eexists; split; [reflexivity|]. apply positive_or_none_cases. }
  destruct (PyStr.isdigit (PyStr.lower s)) eqn:Hd; [|eauto].
  assert (PyStr.lower s = s) as E.
  { apply lower_isdigit. unfold PyStr.isdigit in Hd.
    destruct (PyStr.lower s); [discriminate | exact Hd]. }
  rewrite E in *.
  rewrite int_decimal; [|destruct s; [discriminate|done]|exact (Hs Hd)|exact Hl].
  eexists; split; [reflexivity|]. apply positive_or_none_cases.
Qed.

Lemma parse_time_string_returns_witness :
  ∃ r, parse_time_string "1d2h" = Return r
       ∧ (r = None ∨ ∃ n, r = Some n ∧ 0 < n).
Proof.
  apply (parse_time_string_returns "1d2h"); [vm_compute|]; discriminate.
Defined.

(** *** Durations *)

Lemma append_nil t : ("" ++ t)%string = t.
Proof. reflexivity. Qed.

Lemma append_cons c s t : (String c s ++ t)%string = String c (s ++ t).
Proof. reflexivity. Qed.

Lemma lower_app s t :
  PyStr.lower (s ++ t) = (PyStr.lower s ++ PyStr.lower t)%string.
Proof.
  induction s as [|c s IH]; [reflexivity|].
  cbn [PyStr.lower]. rewrite !append_cons. cbn [PyStr.lower].
  rewrite IH. reflexivity.
Qed.

Lemma string_of_uint_decimal d :
  PyStr.all_chars PyStr.is_decimal (NilEmpty.string_of_uint d) = true.
Proof. induction d; cbn; try exact IHd; reflexivity. Qed.

Lemma int_acc_string_of_uint d acc :
  PyStr.int_acc (Z.pos acc) (NilEmpty.string_of_uint d)
  = Z.pos (Pos.of_uint_acc d acc).
Proof.
  revert acc. induction d; intros acc; cbn [NilEmpty.string_of_uint
    PyStr.int_acc Pos.of_uint_acc]; [reflexivity|..];
    rewrite <- IHd; f_equal; vm_compute PyStr.digit_value; lia.
Qed.

Lemma int_acc_of_uint d :
  PyStr.int_acc 0 (NilEmpty.string_of_uint d) = Z.of_N (Pos.of_uint d).
Proof.
  induction d; cbn [NilEmpty.string_of_uint PyStr.int_acc Pos.of_uint];
    [reflexivity | exact IHd | ..];
    exact (int_acc_string_of_uint d _).
Qed.

(** The numeral of [n] is a non-empty run of decimal digits that [int]
    reads back as [n]. *)
Lemma numeral_digits n :
  numeral n ≠ ""
  ∧ PyStr.all_chars PyStr.is_decimal (numeral n) = true
  ∧ PyStr.int_acc 0 (numeral n) = Z.of_N n
  ∧ PyStr.lower (numeral n) = numeral n.
Proof.
  assert (∀ s, PyStr.all_chars PyStr.is_decimal s = true →
               PyStr.lower s = s) as Hlow.
  { induction s as [|c s IH]; cbn; [reflexivity|].
    intros H. apply andb_true_iff in H as [Hc Hs]. rewrite (IH Hs).
    f_equal. apply lower_char_digit.
    revert Hc. destruct c as [[] [] [] [] [] [] [] []]; vm_compute; congruence. }
  unfold numeral. destruct n as [|p]; [repeat split; discriminate|].
  cbn [N.to_uint].
  pose proof (DecimalPos.Unsigned.to_uint_nonnil p) as Hnil.
  pose proof (DecimalPos.Unsigned.of_to p) as Hof.
  destruct (Pos.to_uint p) as [|d|d|d|d|d|d|d|d|d|d] eqn:E; [done|..];
    cbn [NilZero.string_of_uint];
    (split; [discriminate|]);
    (split; [apply string_of_uint_decimal|]);
    (split; [rewrite int_acc_of_uint, Hof; reflexivity|]);
    apply Hlow, string_of_uint_decimal.
Qed.

(** The letters of the units are not digits, and lower case tells the
    units apart. *)
Lemma unit_letter_lower b u :
  PyStr.lower_char (unit_letter b u) = unit_letter false u
  ∧ PyStr.is_decimal (unit_letter false u) = false.
Proof. destruct b, u; split; reflexivity. Qed.

Lemma unit_letter_eqb u v :
  Ascii.eqb (unit_letter false u) (unit_letter false v)
  = bool_decide (u = v).
Proof. destruct u, v; reflexivity. Qed.

Lemma span_decimal_app ds c rest :
  PyStr.all_chars PyStr.is_decimal ds = true →
  PyStr.is_decimal c = false →
  PyStr.span_decimal (ds ++ String c rest) = (ds, String c rest).
Proof.
  intros Hds Hc. induction ds as [|a ds IH].
  - rewrite append_nil. cbn. rewrite Hc. reflexivity.
  - cbn in Hds. apply andb_true_iff in Hds as [Ha Hds].
    rewrite append_cons. cbn [PyStr.span_decimal].
    rewrite Ha, (IH Hds). reflexivity.
Qed.

(** Searching a text that starts with digits and a letter: the digits
    when the letter is the unit looked for, and otherwise what the
    search finds after the letter. *)
Lemma re_search_app u ds c rest :
  PyStr.all_chars PyStr.is_decimal ds = true →
  PyStr.is_decimal c = false →
  PyStr.re_search u (ds ++ String c rest)
  = if Ascii.eqb c u
    then match ds with
         | "" => PyStr.re_search u rest
         | _ => Some ds
         end
    else PyStr.re_search u rest.
Proof.
  intros Hds Hc. induction ds as [|a ds IH].
  - rewrite append_nil. cbn [PyStr.re_search]. unfold PyStr.match_here.
    cbn [PyStr.span_decimal]. rewrite Hc.
    destruct (Ascii.eqb c u); reflexivity.
  - pose proof (span_decimal_app (String a ds) c rest Hds Hc) as Hspan.
    cbn in Hds. apply andb_true_iff in Hds as [Ha Hds].
    rewrite append_cons in *. cbn [PyStr.re_search].
    unfold PyStr.match_here. rewrite Hspan.
    destruct (Ascii.eqb c u) eqn:E; [reflexivity|].
    exact (IH Hds).
Qed.

Lemma lower_duration_text parts :
  PyStr.lower (duration_text parts)
  = duration_text
      (map (λ p, {| quantity := quantity p; measure := measure p;
                    upper_case := false |}) parts).
Proof.
  induction parts as [|p rest IH]; [reflexivity|].
  cbn [duration_text map quantity measure upper_case].
  rewrite lower_app. cbn [PyStr.lower].
  destruct (numeral_digits (quantity p)) as (_ & _ & _ & ->).
  rewrite (proj1 (unit_letter_lower _ _)), IH. reflexivity.
Qed.

Lemma re_search_duration_text u parts :
  PyStr.re_search (unit_letter false u) (PyStr.lower (duration_text parts))
  = numeral <$> first_quantity u parts.
Proof.
  rewrite lower_duration_text.
  induction parts as [|p rest IH]; [reflexivity|].
  cbn [duration_text map quantity measure upper_case first_quantity].
  destruct (numeral_digits (quantity p)) as (Hne & Hd & _ & _).
  rewrite re_search_app;
    [|exact Hd | apply unit_letter_lower; exact false].
  rewrite unit_letter_eqb.
  destruct (bool_decide (measure p = u)); [|exact IH].
  cbn [fmap option_fmap option_map].
  destruct (numeral (quantity p)); [done | reflexivity].
Qed.

Lemma matched_value_duration_text u parts :
  matched_value (unit_letter false u) (PyStr.lower (duration_text parts))
  = default 0 (Z.of_N <$> first_quantity u parts).
Proof.
  unfold matched_value. rewrite re_search_duration_text.
  destruct (first_quantity u parts) as [n|]; [|reflexivity].
  cbn. apply numeral_digits.
Qed.

Lemma first_quantity_absent u parts :
  u ∉ measure <$> parts → first_quantity u parts = None.
Proof.
  induction parts as [|p rest IH]; [reflexivity|].
  cbn [first_quantity fmap list_fmap]. intros Hn.
  apply not_elem_of_cons in Hn as [Hne Hn].
  rewrite bool_decide_eq_false_2 by congruence. exact (IH Hn).
Qed.

Lemma duration_minutes_units parts :
  NoDup (measure <$> parts) →
  duration_minutes parts
  = default 0 (Z.of_N <$> first_quantity Hours parts) * 60
    + default 0 (Z.of_N <$> first_quantity Minutes parts)
    + default 0 (Z.of_N <$> first_quantity Days parts) * 1440.
Proof.
  induction parts as [|p rest IH]; [reflexivity|].
  cbn [fmap list_fmap]. intros Hnd. apply NoDup_cons in Hnd as [Hp Hnd].
  cbn [duration_minutes first_quantity]. rewrite (IH Hnd).
  pose proof (first_quantity_absent (measure p) rest Hp) as Ha.
  destruct (measure p); repeat case_bool_decide; try congruence;
    rewrite Ha; cbn; lia.
Qed.

(** X2. A duration written as numbers with their units, each unit at
    most once, in any order and either letter case, is read as the sum
    of the numbers times 60, 1 and 1440 minutes; a sum that is not
    positive is "no expiry". *)
Theorem parse_time_string_components parts :
  parts ≠ [] →
  NoDup (measure <$> parts) →
  PyStr.len (duration_text parts) ≤ PyStr.max_str_digits →
  parse_time_string (duration_text parts)
  = Return (positive_or_none (duration_minutes parts)).
Proof.
  intros Hne Hnd Hl. rewrite parse_time_string_decision by exact Hl.
  assert (String.eqb (duration_text parts) ""
          || String.eqb (PyStr.lower (duration_text parts)) "none" = false)
    as ->.
  { rewrite lower_duration_text.
    destruct parts as [|p rest]; [done|].
    cbn [duration_text map quantity measure upper_case].
    destruct (numeral_digits (quantity p)) as (Hn & Hd & _ & _).
    destruct (numeral (quantity p)) as [|c t]; [done|].
    cbn in Hd. apply andb_true_iff in Hd as [Hc _].
    rewrite !append_cons. cbn [String.eqb orb].
    destruct (Ascii.eqb_spec c "n"); [|reflexivity].
    subst c. discriminate. }
  cbv zeta.
  change "h"%char with (unit_letter false Hours).
  change "m"%char with (unit_letter false Minutes).
  change "d"%char with (unit_letter false Days).
  rewrite !matched_value_duration_text, !re_search_duration_text.
  assert (is_match (numeral <$> first_quantity Hours parts)
          || is_match (numeral <$> first_quantity Minutes parts)
          || is_match (numeral <$> first_quantity Days parts) = true) as ->.
  { destruct parts as [|p rest]; [done|]. cbn [first_quantity].
    destruct (measure p); cbn; rewrite ?orb_true_r; reflexivity. }
  rewrite (duration_minutes_units parts Hnd). do 2 f_equal. lia.
Qed.

Lemma parse_time_string_components_witness :
  parse_time_string "30M1d" = Return (Some 1470).
Proof.
  apply (parse_time_string_components
           [ {| quantity := 30; measure := Minutes; upper_case := true |};
             {| quantity := 1; measure := Days; upper_case := false |} ]).
  - discriminate.
  - cbn. apply NoDup_cons. split.
    + intros H. apply list_elem_of_singleton in H. discriminate.
    + apply NoDup_singleton.
  - vm_compute. discriminate.
Defined.

(** X3. The examples of the design document, and "none" in any letter
    case. *)
Theorem parse_time_string_examples :
  parse_time_string "1h30m" = Return (Some 90)
  ∧ parse_time_string "2h" = Return (Some 120)
  ∧ parse_time_string "45" = Return (Some 45)
  ∧ parse_time_string "45m" = Return (Some 45)
  ∧ parse_time_string "1d2h" = Return (Some 1560)
  ∧ parse_time_string "" = Return None
  ∧ parse_time_string "0h0m" = Return None
  ∧ parse_time_string "0" = Return None
  ∧ parse_time_string "soon" = Return None
  ∧ (∀ s, PyStr.lower s = "none" → parse_time_string s = Return None).
Proof.
  repeat (split; [reflexivity|]).
  intros s Hs. unfold parse_time_string. rewrite Hs.
  rewrite orb_true_r. reflexivity.
Qed.

(** ** Further properties of the ledger *)

(** A redemption record stays: no writer deletes from [redeem_logs]. *)
Lemma insert_log_claimed user_id code l :
  preserves (λ d, claimed user_id code d = true) (insert_log l).
Proof.
  apply preserves_execute. intros d d' Hd E.
  destruct (claimed (log_user_id l) (log_code l) d); [discriminate|].
  injection E as <-. unfold claimed in *. cbn.
  rewrite existsb_app, Hd. reflexivity.
Qed.

Lemma bulk_update_loop_claimed user_id code now user_ids amt :
  preserves (λ d, claimed user_id code d = true)
            (bulk_update_loop now user_ids amt).
Proof.
  induction user_ids as [|uid rest IH]; cbn [bulk_update_loop].
  - apply preserves_ret.
  - apply preserves_bind; [|intros _; exact IH].
    destruct (0 <? amt); unfold update_user_credits;
      apply preserves_execute; intros ? ? ? E;
      repeat (case_match; try discriminate);
      cbn in E; injection E as <-; assumption.
Qed.

Lemma perform_claimed user_id code now c d :
  claimed user_id code d = true → claimed user_id code (perform now c d) = true.
Proof.
  intros Hd.
  destruct c; cbn [perform];
    unfold_writers; unfold redeem_code_db;
    (apply (with_connection_preserves (λ d, claimed user_id code d = true));
     [|assumption]);
    try unfold add_user_body; try unfold update_credits_body;
    try unfold create_redeem_code_body; try unfold redeem_code_db_body;
    repeat preserves_step;
    try apply insert_log_claimed;
    try apply bulk_update_loop_claimed;
    try (unfold update_user_credits, update_user, insert_user, insert_code,
                update_code;
         apply preserves_execute; intros ? ? ? E;
         repeat (case_match; try discriminate);
         cbn in E; injection E as <-; assumption).
Qed.

Lemma history_claimed user_id code calls d :
  claimed user_id code d = true →
  claimed user_id code (history calls d) = true.
Proof.
  revert d. induction calls as [|[now c] rest IH]; intros d Hd; [exact Hd|].
  cbn [history]. apply IH, perform_claimed, Hd.
Qed.

(** X4. After a redemption that succeeded, whatever calls of the writers
    follow, a redemption of the same code by the same user gives no
    credits and changes nothing: it is answered "already_claimed" as
    long as the user has a row, and "user_not_found" once the row has
    been deleted. *)
Theorem redeem_code_db_single_claim now now' d user_id code a d' calls :
  codes_ok d →
  Py.redeem_code_db now user_id code d = (credited a, d') →
  let d'' := history calls d' in
  Py.redeem_code_db now' user_id code d''
  = (match users d'' !! user_id with
     | Some _ => already_claimed
     | None => user_not_found
     end, d'').
Proof.
  intros Hd E d''. unfold Py.redeem_code_db in *.
  destruct (in_int64 user_id); [|discriminate].
  assert (codes_ok d') as Hd'.
  { replace d' with (redeem_code_db now user_id code d).2 by (rewrite E; done).
    apply redeem_code_db_codes_ok, Hd. }
  assert (claimed user_id code d' = true) as Hcl.
  { rewrite (redeem_code_db_decision now d user_id code (proj1 Hd)) in E.
    destruct (users d !! user_id) as [u|]; [|discriminate].
    destruct (claimed user_id code d); [discriminate|].
    destruct (redeem_codes d !! code) as [c|]; [|discriminate].
    destruct (is_active c =? 0); [discriminate|].
    destruct (max_uses c <=? current_uses c); [discriminate|].
    destruct (expiry_elapsed now c); [discriminate|].
    injection E as _ <-. unfold claimed. cbn [redeem_logs redeemed].
    rewrite existsb_app. cbn.
    rewrite Z.eqb_refl, String.eqb_refl, orb_true_r. reflexivity. }
  pose proof (history_codes_ok calls d' Hd') as Hd''.
  pose proof (history_claimed user_id code calls d' Hcl) as Hcl''.
  fold d'' in Hd'', Hcl''.
  rewrite (redeem_code_db_decision now' d'' user_id code (proj1 Hd'')).
  rewrite Hcl''. destruct (users d'' !! user_id); reflexivity.
Qed.

Lemma redeem_code_db_single_claim_witness :
  Py.redeem_code_db 120000000 7 "GIFT"
    (history [(90000000, DeleteUser 7)]
       (redeemed 60000000 7 "GIFT" ann (gift (IsoText 0)) (shop (IsoText 0))))
  = (user_not_found,
     history [(90000000, DeleteUser 7)]
       (redeemed 60000000 7 "GIFT" ann (gift (IsoText 0)) (shop (IsoText 0))))
  ∧ Py.redeem_code_db 120000000 7 "GIFT"
      (history [(90000000, UpdateCredits 7 (-3))]
         (redeemed 60000000 7 "GIFT" ann (gift (IsoText 0))
            (shop (IsoText 0))))
    = (already_claimed,
       history [(90000000, UpdateCredits 7 (-3))]
         (redeemed 60000000 7 "GIFT" ann (gift (IsoText 0))
            (shop (IsoText 0)))).
Proof.
  assert (codes_ok (shop (IsoText 0))) as Hd.
  { split; [apply shop_check_constraints|].
    intros code c Hc. cbn in Hc. apply lookup_singleton_Some in Hc as [_ <-].
    cbn. lia. }
  assert (Py.redeem_code_db 60000000 7 "GIFT" (shop (IsoText 0))
          = (credited 10,
             redeemed 60000000 7 "GIFT" ann (gift (IsoText 0))
               (shop (IsoText 0)))) as E.
  { unfold Py.redeem_code_db. cbn [in_int64 andb].
    rewrite (redeem_code_db_decision _ _ _ _ (shop_check_constraints _)).
    reflexivity. }
  split.
  - exact (redeem_code_db_single_claim 60000000 120000000 (shop (IsoText 0))
             7 "GIFT" 10 _ [(90000000, DeleteUser 7)] Hd E).
  - exact (redeem_code_db_single_claim 60000000 120000000 (shop (IsoText 0))
             7 "GIFT" 10 _ [(90000000, UpdateCredits 7 (-3))] Hd E).
Defined.

(** X5. Calls of [update_credits] on one user, made one after the other,
    with amounts and balances that fit 64 bits, leave the balance at
    the old balance plus the sum of the amounts. *)
Theorem update_credits_sequence (deltas : list (Z * Z)) user_id d u :
  users d !! user_id = Some u →
  in_int64 user_id = true →
  balances_fit (credits u) deltas.*2 = true →
  credits <$>
    users (foldl (λ d na, (Py.update_credits na.1 user_id na.2 d).2) d deltas)
    !! user_id
  = Some (credits u + foldr (λ na acc, na.2 + acc) 0 deltas).
Proof.
  intros Hu Hid. revert d u Hu.
  induction deltas as [|[now amt] rest IH]; intros d u Hu Hfit.
  - cbn. rewrite Hu. cbn. f_equal. lia.
  - cbn [fmap list_fmap snd balances_fit] in Hfit.
    apply andb_true_iff in Hfit as [Hfit Hrest].
    apply andb_true_iff in Hfit as [Hamt _].
    cbn [foldl fst snd foldr]. unfold Py.update_credits at 2.
    rewrite Hamt, Hid. cbn [andb].
    rewrite (update_credits_present now d user_id amt u Hu).
    cbn [snd].
    erewrite IH; [|cbn; apply lookup_insert_eq|exact Hrest].
    cbn. f_equal. lia.
Qed.

Lemma update_credits_sequence_witness :
  credits <$>
    users (foldl (λ d na, (Py.update_credits na.1 7 na.2 d).2)
                 (shop (IsoText 0)) [(1, 4); (2, -6); (3, 1)]) !! 7
  = Some 4.
Proof.
  exact (update_credits_sequence [(1, 4); (2, -6); (3, 1)] 7
           (shop (IsoText 0)) ann eq_refl eq_refl eq_refl).
Defined.

(** X6. [start_command] never registers a user as their own referrer. *)
Theorem start_command_register_no_self_referrer now user_id uname parsed d :
  no_self_referrer d →
  no_self_referrer (start_command_register now user_id uname parsed d).
Proof.
  intros Hd. unfold start_command_register.
  destruct (users d !! user_id); [assumption|]. cbv zeta.
  assert (no_self_referrer
            (add_user now user_id uname (start_referrer user_id parsed) d).2)
    as H1.
  { apply (perform_no_self_referrer now
             (AddUser user_id uname (start_referrer user_id parsed)) d);
      [|assumption].
    cbn. unfold start_referrer. destruct parsed as [r|]; [|discriminate].
    destruct (Z.eqb_spec r user_id); congruence. }
  destruct (start_referrer user_id parsed) as [r|]; [|assumption].
  destruct (truthy (Some r)); [|assumption].
  apply (perform_no_self_referrer now (UpdateCredits r 3)); [tauto|assumption].
Qed.

Lemma start_command_register_no_self_referrer_witness :
  no_self_referrer (start_command_register 5 7 (Some "ann") (Some 7) empty_db).
Proof.
  apply (start_command_register_no_self_referrer 5 7 (Some "ann") (Some 7)
           empty_db).
  exact empty_db_no_self_referrer.
Defined.



(** X8. A code created with a positive [expiry_minutes] that the
    AFTER INSERT trigger has left active can be redeemed up to that many
    minutes after its creation, and is answered "expired" afterwards;
    one that the trigger has switched off is answered "inactive". *)
Theorem expiry_window now d code amt uses m user_id u :
  codes_ok d →
  redeem_codes d !! code = None →
  0 < amt → 0 < uses → 0 < m →
  in_int64 amt && in_int64 uses && in_int64 m = true →
  users d !! user_id = Some u →
  in_int64 user_id = true →
  ¬ has_redeemed user_id code d →
  let created := Py.create_redeem_code now code amt uses (Some m) d in
  created.1.1 = true
  ∧ ∀ later,
      (is_active <$> redeem_codes created.2 !! code = Some 1 →
       (Py.redeem_code_db later user_id code created.2).1
       = if now + m * us_per_minute <? later then expired else credited amt)
      ∧ (is_active <$> redeem_codes created.2 !! code = Some 0 →
         Py.redeem_code_db later user_id code created.2
         = (inactive, created.2)).
Proof.
  intros Hd Hc Ha Hu Hm Hfit Hus Hid Hcl created. subst created.
  assert (claimed user_id code d = false) as Hcl'.
  { destruct (claimed user_id code d) eqn:E; [|reflexivity].
    apply claimed_has_redeemed in E. done. }
  unfold Py.create_redeem_code, Py.redeem_code_db.
  cbn [bindable]. rewrite Hfit, Hid.
  assert (codes_ok (create_redeem_code now code amt uses (Some m) d).2) as Hd1.
  { apply (perform_codes_ok now (CreateRedeemCode code amt uses (Some m)) d).
    exact Hd. }
  split.
  { rewrite create_redeem_code_decision, Hc.
    destruct (Z.leb_spec amt 0); [lia|].
    destruct (Z.leb_spec uses 0); [lia|]. reflexivity. }
  intros later.
  rewrite (redeem_code_db_decision _ _ _ _ (proj1 Hd1)).
  rewrite create_redeem_code_decision, Hc.
  destruct (Z.leb_spec amt 0); [lia|].
  destruct (Z.leb_spec uses 0); [lia|].
  cbn [snd users redeem_codes cleanup_expired_codes_trigger set_codes].
  rewrite Hus. unfold claimed in *.
  cbn [redeem_logs cleanup_expired_codes_trigger set_codes]. rewrite Hcl'.
  rewrite lookup_fmap, lookup_insert_eq. cbn [fmap option_fmap option_map].
  destruct (sql_expired now _);
    cbn [is_active max_uses current_uses amount set_is_active];
    (split; intros Hact; [|try discriminate; try reflexivity]);
    try discriminate.
  destruct (Z.leb_spec uses 0); [lia|].
  unfold expiry_elapsed. cbn [expiry_minutes created_date].
  destruct (Z.ltb_spec 0 m); [|lia]. cbn [andb].
  destruct (now + m * us_per_minute <? later); reflexivity.
Qed.

Lemma expiry_window_witness :
  (Py.redeem_code_db (9 * us_per_minute) 7 "TEN"
     (Py.create_redeem_code 0 "TEN" 4 1 (Some 10) (shop (IsoText 0))).2).1
  = credited 4
  ∧ (Py.redeem_code_db (11 * us_per_minute) 7 "TEN"
       (Py.create_redeem_code 0 "TEN" 4 1 (Some 10) (shop (IsoText 0))).2).1
    = expired.
Proof.
  assert (codes_ok (shop (IsoText 0))) as Hd.
  { split; [apply shop_check_constraints|].
    intros code c Hc. cbn in Hc. apply lookup_singleton_Some in Hc as [_ <-].
    cbn. lia. }
  assert (¬ has_redeemed 7 "TEN" (shop (IsoText 0))) as Hnot.
  { intros (l & Hin & _). cbn in Hin. apply elem_of_nil in Hin. exact Hin. }
  destruct (expiry_window 0 (shop (IsoText 0)) "TEN" 4 1 10 7 ann Hd
              eq_refl eq_refl eq_refl eq_refl eq_refl eq_refl eq_refl Hnot)
    as (_ & H).
  split.
  - rewrite (proj1 (H (9 * us_per_minute)) eq_refl). reflexivity.
  - rewrite (proj1 (H (11 * us_per_minute)) eq_refl). reflexivity.
Defined.

(** ** The other writers *)

Lemma update_credits_result now d user_id amt :
  (update_credits now user_id amt d).2
  = match users d !! user_id with
    | Some u =>
        set_users
          (insert user_id
             (touch_last_active now
                (if 0 <? amt
                 then with_last_active (isoformat now)
                        (with_total_earned (λ e, e + amt)
                           (with_credits (λ c, c + amt) u))
                 else with_last_active (isoformat now)
                        (with_credits (λ c, c + amt) u)))) d
    | None => d
    end.
Proof.
  unfold update_credits, update_credits_body. run_sql.
  destruct (users d !! user_id) as [u|] eqn:Hu.
  - destruct (0 <? amt);
      rewrite (update_user_credits_present _ _ _ u) by exact Hu; reflexivity.
  - destruct (0 <? amt);
      rewrite update_user_credits_absent by exact Hu; reflexivity.
Qed.

(** The loop of [bulk_update_credits] stores, in its transaction, what
    the calls of [update_credits] store one commit at a time. *)
Lemma bulk_update_loop_history now user_ids amt (k : conn) :
  bulk_update_loop now user_ids amt k
  = (Return tt,
     {| disk := disk k;
        txn := history (map (λ user_id, (now, UpdateCredits user_id amt))
                            user_ids) (txn k) |}).
Proof.
  revert k. induction user_ids as [|user_id rest IH]; intros k.
  - destruct k. reflexivity.
  - cbn [bulk_update_loop map history perform].
    rewrite update_credits_result.
    unfold mbind, sql_bind.
    destruct (users (txn k) !! user_id) as [u|] eqn:Hu.
    + destruct (0 <? amt);
        rewrite (update_user_credits_present _ _ _ u) by exact Hu;
        rewrite IH; reflexivity.
    + destruct (0 <? amt);
        rewrite update_user_credits_absent by exact Hu;
        rewrite IH; reflexivity.
Qed.

(** X9. With an amount and identities that fit 64 bits
    [bulk_update_credits] returns [True] and leaves the database that
    the calls [update_credits(user_id, amount)] leave when made one
    after the other for the identities of the list, in order: an
    identity listed twice is credited twice, one without a row is
    passed over.  When the amount or one of the identities does not
    fit, the call returns [False] and no identity is credited. *)
Theorem bulk_update_credits_sequence now user_ids amt d :
  Py.bulk_update_credits now user_ids amt d
  = if forallb (λ user_id, in_int64 amt && in_int64 user_id) user_ids
    then (true,
          foldl (λ d user_id, (Py.update_credits now user_id amt d).2)
                d user_ids)
    else (false, d).
Proof.
  unfold Py.bulk_update_credits.
  destruct (forallb _ user_ids) eqn:Hfit; [|reflexivity].
  unfold bulk_update_credits. run_sql.
  rewrite bulk_update_loop_history. cbn [snd fst disk txn]. f_equal.
  revert d Hfit. induction user_ids as [|user_id rest IH]; intros d Hfit;
    [reflexivity|].
  cbn [forallb] in Hfit. apply andb_true_iff in Hfit as [Hid Hrest].
  cbn [map history perform foldl]. unfold Py.update_credits at 2.
  rewrite Hid. apply IH, Hrest.
Qed.

(** *** The expiry sweep *)

Lemma cleanup_expired_codes_result now d :
  cleanup_expired_codes now d
  = (Z.of_nat (length (List.filter (λ kc, sweepable now kc.2)
                                   (map_to_list (redeem_codes d)))),
     set_codes (fmap (λ c, if sweepable now c then set_is_active 0 c else c))
               d).
Proof. reflexivity. Qed.

Lemma filter_nil_inv {A : Type} (f : A → bool) (l : list A) :
  List.filter f l = [] → ∀ x, In x l → f x = false.
Proof.
  induction l as [|y l IH]; cbn; [tauto|].
  destruct (f y) eqn:E; [discriminate|].
  intros Hl x [<- | Hx]; [exact E | exact (IH Hl x Hx)].
Qed.

Lemma sweep_row now c :
  kept_or_switched_off c (if sweepable now c then set_is_active 0 c else c).
Proof.
  destruct (sweepable now c) eqn:E; [right | left; reflexivity].
  unfold sweepable in E. apply andb_true_iff in E as [_ E].
  split; [reflexivity | exact (sql_expired_positive now c E)].
Qed.

(** X10. [cleanup_expired_codes] adds and removes no code; each row is
    left as it is or, if it is active and has a positive expiry, is
    switched off, its amount and counters kept; the other tables are
    untouched; the number returned is the number of rows switched off,
    and when it is 0 the database is as it was. *)
Theorem cleanup_expired_codes_sweep now d :
  let result := cleanup_expired_codes now d in
  (∀ code, redeem_codes d !! code = None →
           redeem_codes result.2 !! code = None)
  ∧ (∀ code c, redeem_codes d !! code = Some c →
       ∃ c', redeem_codes result.2 !! code = Some c'
             ∧ kept_or_switched_off c c'
             ∧ (is_active c ≠ 1 → c' = c))
  ∧ users result.2 = users d
  ∧ admins result.2 = admins d
  ∧ redeem_logs result.2 = redeem_logs d
  ∧ result.1 = Z.of_nat (length (switched_off d result.2))
  ∧ (result.1 = 0 → result.2 = d).
Proof.
  intros result. subst result. rewrite !cleanup_expired_codes_result.
  cbn [fst snd].
  split; [|split; [|split; [|split; [|split; [|split]]]]]; try reflexivity.
  - intros code Hc. cbn. rewrite lookup_fmap, Hc. reflexivity.
  - intros code c Hc. cbn. rewrite lookup_fmap, Hc. cbn. eexists.
    split; [reflexivity|]. split; [apply sweep_row|].
    intros Ha. unfold sweepable.
    destruct (Z.eqb_spec (is_active c) 1); [done | reflexivity].
  - do 2 f_equal. unfold switched_off. apply List.filter_ext_in.
    intros [code c] Hin. cbn [fst snd set_codes redeem_codes].
    apply list_elem_of_In, elem_of_map_to_list in Hin.
    rewrite lookup_fmap, Hin. cbn [fmap option_fmap option_map].
    unfold sweepable.
    destruct (Z.eqb_spec (is_active c) 1) as [Ha|Ha]; [|reflexivity].
    cbn [andb]. destruct (sql_expired now c); cbn [is_active set_is_active].
    + rewrite bool_decide_eq_false_2 by discriminate. reflexivity.
    + rewrite bool_decide_eq_true_2 by (f_equal; exact Ha). reflexivity.
  - intros H0.
    assert (List.filter (λ kc : string * code_row, sweepable now kc.2)
              (map_to_list (redeem_codes d)) = []) as Hnil.
    { apply length_zero_iff_nil. lia. }
    destruct d as [us ad cs ls]. unfold set_codes. cbn in *. f_equal.
    apply map_eq. intros code. rewrite lookup_fmap.
    destruct (cs !! code) as [c|] eqn:Hc; [|reflexivity]. cbn.
    assert (sweepable now c = false) as ->; [|reflexivity].
    apply (filter_nil_inv _ _ Hnil (code, c)).
    apply list_elem_of_In, elem_of_map_to_list. exact Hc.
Qed.

(** *** Deactivation *)

Lemma inactive_code_frame code d d' :
  redeem_codes d' = redeem_codes d → inactive_code code d →
  inactive_code code d'.
Proof. intros E (c & Hc & Ha). exists c. rewrite E. auto. Qed.

Lemma inactive_code_fmap code (f : code_row → code_row) d :
  (∀ c, is_active c = 0 → is_active (f c) = 0) →
  inactive_code code d → inactive_code code (set_codes (fmap f) d).
Proof.
  intros Hf (c & Hc & Ha). exists (f c). cbn.
  rewrite lookup_fmap, Hc. auto.
Qed.

Lemma inactive_code_alter code code' (f : code_row → code_row) d :
  (∀ c, is_active c = 0 → is_active (f c) = 0) →
  inactive_code code d → inactive_code code (set_codes (alter f code') d).
Proof.
  intros Hf (c & Hc & Ha).
  destruct (decide (code' = code)) as [->|Hne].
  - exists (f c). cbn. rewrite lookup_alter_eq, Hc. auto.
  - exists c. cbn. rewrite lookup_alter_ne by done. auto.
Qed.

Lemma sweep_keeps_inactive (b : code_row → bool) c :
  is_active c = 0 → is_active (if b c then set_is_active 0 c else c) = 0.
Proof. intros H. destruct (b c); [reflexivity | exact H]. Qed.

Ltac keep_codes :=
  apply preserves_execute; intros ? ? ? E;
  repeat (case_match; try discriminate);
  injection E as <-;
  first [ assumption
        | eapply inactive_code_frame; [|eassumption]; reflexivity ].

Lemma update_code_inactive code code' f :
  (∀ c, is_active c = 0 → is_active (f c) = 0) →
  preserves (inactive_code code) (update_code code' f).
Proof.
  intros Hf. apply preserves_execute. intros d d' Hd E.
  destruct (redeem_codes d !! code') as [c|];
    [|injection E as <-; assumption].
  destruct (0 <=? current_uses (f c)); [|discriminate].
  injection E as <-. apply inactive_code_alter; assumption.
Qed.

Lemma insert_code_inactive now code code' c :
  preserves (inactive_code code) (insert_code now code' c).
Proof.
  apply preserves_execute. intros d d' Hd E.
  destruct (redeem_codes d !! code') eqn:Hc'; [discriminate|].
  destruct ((0 <? amount c) && (0 <? max_uses c) && (0 <=? current_uses c));
    [|discriminate].
  injection E as <-.
  apply inactive_code_fmap; [apply sweep_keeps_inactive|].
  destruct Hd as (c0 & Hc0 & Ha). exists c0. cbn.
  rewrite lookup_insert_ne; [auto|]. congruence.
Qed.

Lemma bulk_update_loop_inactive now code user_ids amt :
  preserves (inactive_code code) (bulk_update_loop now user_ids amt).
Proof.
  induction user_ids as [|user_id rest IH]; cbn [bulk_update_loop].
  - apply preserves_ret.
  - apply preserves_bind; [|intros _; exact IH].
    destruct (0 <? amt); unfold update_user_credits; keep_codes.
Qed.

(** No writer but [delete_redeem_code] of that very code makes an
    inactive code anything else. *)
Lemma perform_inactive_code now code c d :
  c ≠ DeleteRedeemCode code →
  inactive_code code d → inactive_code code (perform now c d).
Proof.
  intros Hc Hd.
  destruct c as [| | | | | | |code'| | | | | |]; cbn [perform];
    unfold_writers; unfold redeem_code_db;
    (apply with_connection_preserves; [|assumption]);
    try unfold add_user_body; try unfold update_credits_body;
    try unfold create_redeem_code_body; try unfold redeem_code_db_body;
    repeat preserves_step;
    try apply insert_code_inactive;
    try (apply update_code_inactive; intros c0 H0;
         first [exact H0 | reflexivity]);
    try apply bulk_update_loop_inactive;
    try (unfold update_user_credits, update_user, insert_user, insert_log;
         keep_codes).
  - apply preserves_execute. intros d0 d' (c0 & Hc0 & Ha) E.
    cbn in E. injection E as <-. exists c0. cbn.
    rewrite lookup_delete_ne; [auto|]. congruence.
  - apply preserves_execute. intros d0 d' H0 E. cbn in E. injection E as <-.
    apply inactive_code_fmap; [apply sweep_keeps_inactive | assumption].
Qed.

Lemma history_inactive_code code calls d :
  Forall (λ nc : Z * call, nc.2 ≠ DeleteRedeemCode code) calls →
  inactive_code code d → inactive_code code (history calls d).
Proof.
  intros Hcalls. revert d.
  induction Hcalls as [|[now c] rest Hc _ IH]; intros d Hd; cbn.
  - assumption.
  - apply IH, perform_inactive_code; assumption.
Qed.

Lemma redeem_code_db_inactive now user_id code d :
  inactive_code code d →
  (redeem_code_db now user_id code d).2 = d
  ∧ ∀ a, (redeem_code_db now user_id code d).1 ≠ credited a.
Proof.
  intros (c & Hc & Ha). unfold redeem_code_db, redeem_code_db_body. run_sql.
  destruct (users d !! user_id); run_sql; [|split; [reflexivity|discriminate]].
  destruct (claimed user_id code d); run_sql;
    [split; [reflexivity|discriminate]|].
  rewrite Hc. run_sql. rewrite Ha. cbn. split; [reflexivity|discriminate].
Qed.

Lemma deactivate_code_inactive code d :
  (deactivate_code code d).1.1 = true →
  inactive_code code (deactivate_code code d).2.
Proof.
  unfold deactivate_code. run_sql.
  destruct (redeem_codes d !! code) as [c|] eqn:Hc; run_sql; [|discriminate].
  unfold update_code, execute. cbn [txn]. rewrite Hc.
  destruct (0 <=? current_uses (set_is_active 0 c)); cbn; [|discriminate].
  intros _. exists (set_is_active 0 c). cbn.
  rewrite lookup_alter_eq, Hc. split; reflexivity.
Qed.

(** X12. Once [deactivate_code] has succeeded, the code stays switched
    off through every later call of a writer other than
    [delete_redeem_code] of that code, and no [redeem_code_db] of it
    credits anything or changes the database: no function switches a
    code back on. *)
Theorem deactivate_code_permanent code calls d now user_id :
  (deactivate_code code d).1.1 = true →
  Forall (λ nc : Z * call, nc.2 ≠ DeleteRedeemCode code) calls →
  let d' := history calls (deactivate_code code d).2 in
  inactive_code code d'
  ∧ (redeem_code_db now user_id code d').2 = d'
  ∧ ∀ a, (redeem_code_db now user_id code d').1 ≠ credited a.
Proof.
  intros Hok Hcalls d'.
  assert (inactive_code code d') as H.
  { apply history_inactive_code; [exact Hcalls|].
    apply deactivate_code_inactive, Hok. }
  split; [exact H|]. apply redeem_code_db_inactive, H.
Qed.

Lemma deactivate_code_permanent_witness :
  let d' := history [(5, UpdateCredits 7 2);
                     (6, CreateRedeemCode "GIFT" 3 3 None);
                     (7, CleanupExpiredCodes)]
                    (deactivate_code "GIFT" (shop (IsoText 0))).2 in
  inactive_code "GIFT" d'
  ∧ (redeem_code_db 8 7 "GIFT" d').2 = d'
  ∧ ∀ a, (redeem_code_db 8 7 "GIFT" d').1 ≠ credited a.
Proof.
  apply (deactivate_code_permanent "GIFT"
           [(5, UpdateCredits 7 2); (6, CreateRedeemCode "GIFT" 3 3 None);
            (7, CleanupExpiredCodes)] (shop (IsoText 0)) 8 7).
  - reflexivity.
  - repeat constructor; cbn; discriminate.
Defined.

(** *** Redemption records *)

Lemma claimed_false_not_in user_id code d :
  claimed user_id code d = false →
  (user_id, code) ∉ map (λ l, (log_user_id l, log_code l)) (redeem_logs d).
Proof.
  unfold claimed. induction (redeem_logs d) as [|l ls IH]; cbn.
  - intros _ H. inversion H.
  - intros H. apply orb_false_iff in H as [Hl Hls].
    intros Hin. apply elem_of_cons in Hin as [Heq|Hin].
    + injection Heq as -> ->.
      rewrite Z.eqb_refl, String.eqb_refl in Hl. discriminate.
    + exact (IH Hls Hin).
Qed.

Ltac keep_logs :=
  apply preserves_execute; intros ? ? ? E;
  repeat (case_match; try discriminate);
  cbn in E; injection E as <-; assumption.

Lemma insert_log_claims_distinct l :
  preserves claims_distinct (insert_log l).
Proof.
  apply preserves_execute. intros d d' Hd E.
  destruct (claimed (log_user_id l) (log_code l) d) eqn:Hcl; [discriminate|].
  injection E as <-. unfold claims_distinct. cbn.
  rewrite map_app. cbn. apply NoDup_app. split; [exact Hd|]. split.
  - intros x Hx Hin. apply list_elem_of_singleton in Hin. subst x.
    exact (claimed_false_not_in _ _ _ Hcl Hx).
  - apply NoDup_singleton.
Qed.

Lemma bulk_update_loop_claims_distinct now user_ids amt :
  preserves claims_distinct (bulk_update_loop now user_ids amt).
Proof.
  induction user_ids as [|user_id rest IH]; cbn [bulk_update_loop].
  - apply preserves_ret.
  - apply preserves_bind; [|intros _; exact IH].
    destruct (0 <? amt); unfold update_user_credits; keep_logs.
Qed.

Lemma perform_claims_distinct now c d :
  claims_distinct d → claims_distinct (perform now c d).
Proof.
  intros Hd.
  destruct c; cbn [perform];
    unfold_writers; unfold redeem_code_db;
    (apply with_connection_preserves; [|assumption]);
    try unfold add_user_body; try unfold update_credits_body;
    try unfold create_redeem_code_body; try unfold redeem_code_db_body;
    repeat preserves_step;
    try apply insert_log_claims_distinct;
    try apply bulk_update_loop_claims_distinct;
    try (unfold update_user_credits, update_user, insert_user, insert_code,
                update_code;
         keep_logs).
Qed.

(** X13. After any sequence of calls of the writers, no two redemption
    records name the same user and the same code: a user holds at most
    one redemption of a code. *)
Theorem redeem_logs_unique calls d :
  claims_distinct d → claims_distinct (history calls d).
Proof.
  revert d. induction calls as [|[now c] rest IH]; intros d Hd; cbn.
  - assumption.
  - apply IH, perform_claims_distinct, Hd.
Qed.

Lemma redeem_logs_unique_witness :
  claims_distinct
    (history [(1, RedeemCodeDb 7 "GIFT"); (2, RedeemCodeDb 7 "GIFT");
              (3, AddUser 8 None (Some 7)); (4, RedeemCodeDb 8 "GIFT")]
             (shop (IsoText 0))).
Proof.
  apply (redeem_logs_unique
           [(1, RedeemCodeDb 7 "GIFT"); (2, RedeemCodeDb 7 "GIFT");
            (3, AddUser 8 None (Some 7)); (4, RedeemCodeDb 8 "GIFT")]
           (shop (IsoText 0))).
  apply NoDup_nil_2.
Defined.

(** *** Balances *)

Lemma ledger_bound_frame d d' :
  users d' = users d → ledger_bound d → ledger_bound d'.
Proof. intros E Hd user_id u H. rewrite E in H. eauto. Qed.













(** *** Administrators *)


(** ** Gates of [main.py] *)

(** The dictionary of a users row has no integer key. *)
Lemma row_dict_no_int_key user_id u n :
  dict_getitem (KeyInt n) (row_dict user_id u) = None.
Proof. reflexivity. Qed.

Lemma is_user_banned_false user_id d : is_user_banned user_id d = false.
Proof.
  unfold is_user_banned, get_user.
  destruct (users d !! user_id) as [u|]; [|reflexivity]. cbn [fmap option_fmap option_map].
  rewrite row_dict_no_int_key. destruct (_ && _); reflexivity.
Qed.

(** X16. [is_user_banned] answers [False] for every user and every
    database: it indexes the dictionary that [get_user] returns with the
    integer 5, which raises [KeyError], and the exception is answered
    [False].  In particular it answers [False] right after
    [set_ban_status(user_id, 1)] has stored the flag 1. *)
Theorem is_user_banned_after_ban now user_id u d :
  users d !! user_id = Some u →
  let d' := (set_ban_status now user_id 1 d).2 in
  is_banned <$> users d' !! user_id = Some 1
  ∧ dict_getitem (KeyStr "is_banned") <$> get_user user_id d'
    = Some (Some (VInt 1))
  ∧ is_user_banned user_id d' = false
  ∧ ∀ uid db, is_user_banned uid db = false.
Proof.
  intros Hu d'. subst d'. unfold set_ban_status, update_user. run_sql.
  unfold get_user. cbn [users set_users].
  rewrite lookup_alter_eq, Hu. cbn.
  repeat split; try reflexivity.
  - apply is_user_banned_false.
  - intros uid db. apply is_user_banned_false.
Qed.

Lemma is_user_banned_after_ban_witness :
  let d' := (set_ban_status 3 7 1 (shop (IsoText 0))).2 in
  is_banned <$> users d' !! 7 = Some 1
  ∧ dict_getitem (KeyStr "is_banned") <$> get_user 7 d'
    = Some (Some (VInt 1))
  ∧ is_user_banned 7 d' = false
  ∧ ∀ uid db, is_user_banned uid db = false.
Proof.
  apply (is_user_banned_after_ban 3 7 ann (shop (IsoText 0))). reflexivity.
Defined.

Lemma credit_gate_decision admin_level user_id d :
  credit_gate admin_level (get_user user_id d)
  = if truthy_level admin_level then Proceed
    else match users d !! user_id with
         | Some _ => AccountError
         | None => InsufficientCredits
         end.
Proof.
  unfold credit_gate, get_user.
  destruct (truthy_level admin_level); [reflexivity|].
  destruct (users d !! user_id) as [u|]; reflexivity.
Qed.

(** X17. [process_api_call] never changes a balance.  A caller who is
    not an administrator is always turned away before the request is
    made, with "Insufficient Credits" when there is no users row and,
    because [user[2]] raises [KeyError], with the account error when
    there is one; an administrator is never debited.  All that the call
    can change in the ledger is the caller's [last_active]. *)
Theorem process_api_call_never_debits
  owner_id admin_ids now user_id completes d :
  let result := process_api_call owner_id admin_ids now user_id completes d in
  (∀ uid, credits <$> users result.2 !! uid = credits <$> users d !! uid)
  ∧ (∀ uid, total_earned <$> users result.2 !! uid
            = total_earned <$> users d !! uid)
  ∧ redeem_codes result.2 = redeem_codes d
  ∧ redeem_logs result.2 = redeem_logs d
  ∧ (truthy_level (is_user_admin owner_id admin_ids user_id d) = false →
     result
     = (Refused match users d !! user_id with
                | Some _ => AccountError
                | None => InsufficientCredits
                end, d)).
Proof.
  intros result. subst result. unfold process_api_call.
  rewrite is_user_banned_false. cbv zeta. rewrite credit_gate_decision.
  destruct (truthy_level (is_user_admin owner_id admin_ids user_id d)) eqn:Ha.
  - destruct completes; cbn [negb snd];
      [|repeat split; intros; discriminate].
    unfold update_last_active, update_user. run_sql.
    cbn [users redeem_codes redeem_logs set_users].
    repeat split; try discriminate; intros uid;
      (destruct (decide (user_id = uid)) as [->|Hne];
       [rewrite lookup_alter_eq; destruct (users d !! uid); reflexivity
       |rewrite lookup_alter_ne by done; reflexivity]).
  - destruct (users d !! user_id); repeat split.
Qed.



(** ** [clean_api_response] *)

Lemma clean_array items :
  clean_api_response (JArray items)
  = JArray (map (λ item, if is_object item then clean_api_response item
                         else item) items).
Proof. reflexivity. Qed.

(** What the object branch does with a value that stays: it is cleaned
    if it is an object or an array, and kept as it is otherwise. *)
Lemma clean_object entries :
  clean_api_response (JObject entries)
  = JObject (map (λ entry, (entry.1, clean_api_response entry.2))
                 (List.filter kept_entry entries)).
Proof.
  cbn [clean_api_response]. f_equal.
  induction entries as [|[key value] rest IH]; [reflexivity|].
  cbn [List.filter]. unfold kept_entry at 1. cbn [fst snd].
  destruct (String.eqb (PyStr.lower key) "branding"); cbn [negb andb];
    [exact IH|].
  destruct value as [| | |v| |]; cbn [negb andb map fst snd];
    try (rewrite <- IH; reflexivity).
  destruct (dropped_string v); cbn [negb map fst snd];
    [exact IH | rewrite <- IH; reflexivity].
Qed.

Lemma clean_is_object data :
  is_object (clean_api_response data) = is_object data.
Proof. destruct data; reflexivity. Qed.

Lemma clean_keeps_entry key value :
  kept_entry (key, value) = true →
  kept_entry (key, clean_api_response value) = true.
Proof. unfold kept_entry. destruct value; cbn [fst snd]; auto. Qed.

Lemma filter_all {A : Type} (f : A → bool) (l : list A) :
  (∀ x, In x l → f x = true) → List.filter f l = l.
Proof.
  induction l as [|x l IH]; intros H; cbn; [reflexivity|].
  rewrite (H x) by (left; reflexivity). f_equal.
  apply IH. intros y Hy. apply H. right. exact Hy.
Qed.

(** A document with nothing to remove is returned as it is. *)
Lemma clean_of_cleaned data :
  cleaned data = true → clean_api_response data = data.
Proof.
  induction data as [| | | |items IH|entries IH] using json_induction;
    try reflexivity.
  - intros H. rewrite clean_array. f_equal. cbn [cleaned] in H.
    induction IH as [|item more Hitem _ IHmore]; [reflexivity|].
    cbn [map forallb] in *. apply andb_true_iff in H as [H1 H2].
    rewrite (IHmore H2). f_equal.
    destruct (is_object item); [auto|reflexivity].
  - intros H. rewrite clean_object. f_equal. cbn [cleaned] in H.
    induction IH as [|[key value] rest Hentry _ IHrest]; [reflexivity|].
    cbn [forallb List.filter] in *. apply andb_true_iff in H as [H1 H2].
    apply andb_true_iff in H1 as [Hk Hv]. rewrite Hk. cbn [map fst snd].
    rewrite (IHrest H2). cbn [snd] in Hentry. rewrite (Hentry Hv).
    reflexivity.
Qed.

Lemma clean_gives_cleaned data : cleaned (clean_api_response data) = true.
Proof.
  induction data as [| | | |items IH|entries IH] using json_induction;
    try reflexivity.
  - rewrite clean_array. cbn [cleaned].
    induction IH as [|item more Hitem _ IHmore]; [reflexivity|].
    cbn [map forallb]. rewrite IHmore, andb_true_r.
    destruct (is_object item) eqn:E; [|rewrite E; reflexivity].
    rewrite clean_is_object, E. exact Hitem.
  - rewrite clean_object. cbn [cleaned].
    induction IH as [|[key value] rest Hentry _ IHrest]; [reflexivity|].
    cbn [List.filter]. destruct (kept_entry (key, value)) eqn:Hk;
      [|exact IHrest].
    cbn [map forallb fst snd]. rewrite IHrest, andb_true_r.
    rewrite (clean_keeps_entry key value Hk). exact Hentry.
Qed.

(** X19. [clean_api_response] is idempotent: cleaning a cleaned
    response changes nothing. *)
Theorem clean_api_response_idempotent data :
  clean_api_response (clean_api_response data) = clean_api_response data.
Proof. apply clean_of_cleaned, clean_gives_cleaned. Qed.

(** X20. In the response that [clean_api_response] returns, no object
    that it reaches (through the values of objects and through the
    objects among the items of an array) has a key that is "branding" in
    some letter case, or a string value that names one of the unwanted
    accounts or speaks of credit without naming nullprotocol.  It does
    not reach into an array that is itself an item of an array: an array
    without objects among its items is returned as it is, whatever its
    inner arrays hold; and a response that is neither an object nor an
    array is returned as it is. *)
Theorem clean_api_response_cleaned :
  (∀ data, cleaned (clean_api_response data) = true)
  ∧ (∀ entries key value,
       In (key, value)
          match clean_api_response (JObject entries) with
          | JObject cleaned_entries => cleaned_entries
          | _ => []
          end →
       PyStr.lower key ≠ "branding"
       ∧ (∀ v, value = JString v → dropped_string v = false)
       ∧ ∃ value', In (key, value') entries
                   ∧ value = clean_api_response value')
  ∧ (∀ items, forallb (λ item, negb (is_object item)) items = true →
              clean_api_response (JArray items) = JArray items)
  ∧ (∀ data, is_object data = false →
             (∀ items, data ≠ JArray items) →
             clean_api_response data = data).
Proof.
  split; [exact clean_gives_cleaned|]. split; [|split].
  - intros entries key value. rewrite clean_object. intros Hin.
    apply in_map_iff in Hin as ([k v'] & E & Hin). cbn in E.
    injection E as -> <-.
    apply filter_In in Hin as [Hin Hk].
    pose proof (clean_keeps_entry key v' Hk) as Hk'.
    unfold kept_entry in Hk, Hk'. cbn [fst snd] in *.
    apply andb_true_iff in Hk' as [H1 H2].
    split.
    { intros E. rewrite E in H1. discriminate. }
    split.
    { intros v E. rewrite E in H2. apply negb_true_iff in H2. exact H2. }
    exists v'. split; [exact Hin | reflexivity].
  - intros items H. rewrite clean_array. f_equal.
    induction items as [|item more IH]; [reflexivity|].
    cbn [forallb map] in *. apply andb_true_iff in H as [H1 H2].
    rewrite (IH H2). apply negb_true_iff in H1. rewrite H1. reflexivity.
  - intros data Ho Ha. destruct data; try reflexivity; [|discriminate].
    exfalso. exact (Ha items eq_refl).
Qed.

(** ** Sequences of redemptions *)

Lemma claimed_app_other user_id code l d :
  claimed user_id code (set_logs (λ ls, (ls ++ [l])%list) d)
  = claimed user_id code d
    || ((log_user_id l =? user_id) && String.eqb (log_code l) code).
Proof.
  unfold claimed. cbn. rewrite existsb_app. cbn. rewrite orb_false_r.
  reflexivity.
Qed.

(** One redemption after another, by users who each hold no redemption
    of the code yet, as long as uses are left. *)
Lemma redeem_sequence now_users code :
  ∀ d c,
    codes_ok d →
    redeem_codes d !! code = Some c →
    is_active c ≠ 0 →
    expiry_minutes c = None →
    NoDup now_users.*2 →
    (∀ u, u ∈ now_users.*2 →
          is_Some (users d !! u) ∧ claimed u code d = false) →
    current_uses c + Z.of_nat (length now_users) ≤ max_uses c →
    let d' := history (map (λ nu : Z * Z, (nu.1, RedeemCodeDb nu.2 code))
                           now_users) d in
    codes_ok d'
    ∧ redeem_codes d' !! code
      = Some (with_current_uses (λ n, n + Z.of_nat (length now_users)) c)
    ∧ (∀ u, u ∈ now_users.*2 → claimed u code d' = true)
    ∧ (∀ u, u ∉ now_users.*2 →
            users d' !! u = users d !! u
            ∧ claimed u code d' = claimed u code d).
Proof.
  induction now_users as [|[now u] rest IH]; intros d c Hd Hc Ha He Hnd Hus Hn.
  - cbn. split; [exact Hd|]. split.
    + rewrite Hc. f_equal. destruct c; unfold with_current_uses; cbn.
      f_equal; lia.
    + split; [intros u Hu; inversion Hu | auto].
  - cbn [map history perform fst snd length fmap list_fmap] in *.
    apply NoDup_cons in Hnd as [Hu_rest Hnd].
    destruct (Hus u ltac:(left)) as [[ur Hur] Hcl].
    pose proof (codes_ok_row d code c Hd Hc) as (Hamt & Hmax & Huses).
    assert (redeem_code_db now u code d
            = (credited (amount c), redeemed now u code ur c d)) as Hred.
    { rewrite (redeem_code_db_decision now d u code (proj1 Hd)).
      rewrite Hur, Hcl, Hc.
      destruct (Z.eqb_spec (is_active c) 0); [done|].
      destruct (Z.leb_spec (max_uses c) (current_uses c)); [lia|].
      unfold expiry_elapsed. rewrite He. reflexivity. }
    assert (codes_ok (redeemed now u code ur c d)) as Hd1.
    { replace (redeemed now u code ur c d)
        with (redeem_code_db now u code d).2 by (rewrite Hred; reflexivity).
      apply redeem_code_db_codes_ok, Hd. }
    rewrite Hred. cbn [snd].
    specialize (IH (redeemed now u code ur c d)
                   (with_current_uses (λ n, n + 1) c) Hd1).
    destruct IH as (H1 & H2 & H3 & H4).
    + cbn. apply lookup_insert_eq.
    + exact Ha.
    + exact He.
    + exact Hnd.
    + intros v Hv. destruct (Hus v ltac:(right; exact Hv)) as [Hvu Hvc].
      assert (u ≠ v) as Hne by (intros ->; contradiction).
      split.
      * cbn. rewrite lookup_insert_ne by done. exact Hvu.
      * unfold claimed in *. cbn. rewrite existsb_app, Hvc. cbn.
        destruct (Z.eqb_spec u v); [done|]. reflexivity.
    + cbn. lia.
    + split; [exact H1|]. split.
      { rewrite H2. f_equal. unfold with_current_uses. cbn. f_equal; lia. }
      split.
      * intros v Hv. apply elem_of_cons in Hv as [->|Hv]; [|auto].
        destruct (H4 u Hu_rest) as [_ ->].
        unfold claimed. cbn. rewrite existsb_app. cbn.
        rewrite Z.eqb_refl, String.eqb_refl. apply orb_true_r.
      * intros v Hv. apply not_elem_of_cons in Hv as [Hne Hv].
        destruct (H4 v Hv) as [-> ->]. split.
        -- cbn. rewrite lookup_insert_ne by done. reflexivity.
        -- unfold claimed. cbn. rewrite existsb_app. cbn.
           destruct (Z.eqb_spec u v); [congruence|].
           rewrite orb_false_r. reflexivity.
Qed.

(** X21. The use limit: when as many distinct users as a code without
    expiry has uses left, each with a users row and no redemption of the
    code yet, redeem it one after another, the use count reaches the
    maximum, each of them holds a redemption, and a redemption tried
    afterwards by any further user is answered "limit_reached" and
    changes nothing. *)
Theorem use_count_ceiling now_users code d c now v :
  codes_ok d →
  redeem_codes d !! code = Some c →
  is_active c ≠ 0 →
  expiry_minutes c = None →
  NoDup now_users.*2 →
  (∀ u, u ∈ now_users.*2 → is_Some (users d !! u) ∧ claimed u code d = false) →
  current_uses c + Z.of_nat (length now_users) = max_uses c →
  is_Some (users d !! v) → claimed v code d = false → v ∉ now_users.*2 →
  let d' := history (map (λ nu : Z * Z, (nu.1, RedeemCodeDb nu.2 code))
                         now_users) d in
  current_uses <$> redeem_codes d' !! code = Some (max_uses c)
  ∧ (∀ u, u ∈ now_users.*2 → claimed u code d' = true)
  ∧ redeem_code_db now v code d' = (limit_reached, d').
Proof.
  intros Hd Hc Ha He Hnd Hus Hn Hv Hvc Hvn d'. subst d'.
  destruct (redeem_sequence now_users code d c Hd Hc Ha He Hnd Hus
              ltac:(lia)) as (H1 & H2 & H3 & H4).
  split; [rewrite H2; cbn; f_equal; lia|]. split; [exact H3|].
  rewrite (redeem_code_db_decision _ _ _ _ (proj1 H1)).
  destruct (H4 v Hvn) as [-> ->]. destruct Hv as [uv ->].
  rewrite Hvc, H2. cbn [is_active max_uses current_uses with_current_uses].
  destruct (Z.eqb_spec (is_active c) 0); [done|].
  destruct (Z.leb_spec (max_uses c)
              (current_uses c + Z.of_nat (length now_users))); [reflexivity|].
  lia.
Qed.

Lemma crowd_codes_ok : codes_ok crowd.
Proof.
  apply codes_ok_intro. intros code c Hc. cbn in Hc.
  apply lookup_singleton_Some in Hc as [_ <-]. cbn. lia.
Qed.

Lemma use_count_ceiling_witness :
  let d' := history [(1, RedeemCodeDb 7 "TWO"); (2, RedeemCodeDb 8 "TWO")]
                    crowd in
  current_uses <$> redeem_codes d' !! "TWO" = Some 2
  ∧ (∀ u, u ∈ [7; 8] → claimed u "TWO" d' = true)
  ∧ redeem_code_db 3 9 "TWO" d' = (limit_reached, d').
Proof.
  apply (use_count_ceiling [(1, 7); (2, 8)] "TWO" crowd
           {| amount := 4; max_uses := 2; current_uses := 0;
              expiry_minutes := None; created_date := IsoText 0;
              is_active := 1 |} 3 9).
  - exact crowd_codes_ok.
  - reflexivity.
  - discriminate.
  - reflexivity.
  - cbn. apply NoDup_cons. split; [|apply NoDup_singleton].
    intros H. apply list_elem_of_singleton in H. discriminate.
  - intros u Hu. cbn in Hu.
    apply elem_of_cons in Hu as [->|Hu];
      [split; [eexists|]; reflexivity|].
    apply list_elem_of_singleton in Hu as ->.
    split; [eexists|]; reflexivity.
  - reflexivity.
  - eexists. reflexivity.
  - reflexivity.
  - cbn. intros H. apply elem_of_cons in H as [H|H]; [discriminate|].
    apply list_elem_of_singleton in H. discriminate.
Defined.

(** ** Identities and codes that have no row *)





